(** * Restaurant reservation chatbot: time rounding, catalog search,
      reservation ledger and the sequential tool-calling loop.

    A shallow embedding of [utils.py], [tools.py] and the loop of [app.py].

    Conventions of the embedding.
    - A Python [str] is a [string]; every [ascii] stands for the code point
      of the same number (0..255).  In that range the class [\d] of the
      [re] module is exactly ['0'..'9'].
    - A Python [int] is a [Z].
    - The dictionary that a function of [tools.py] hands to [json.dumps]
      is a record with a field for every key, an [option] for a key that
      some branches leave out; the function is given as returning that
      record.  [make_reservation] reads the answer of [check_availability]
      back with [json.loads], which gives the same dictionary.
    - The SQLite file [bookings.db] is the list of its committed rows, and
      calls follow one another.  The [INSERT] raises when the party size
      or the next row id is beyond SQLite's 64-bit integers; no other
      statement raises (no lock time-out, no I/O error), and [SUM] is
      taken in [Z]: it is SQLite's as long as the party sizes of the
      table add up within 64 bits ([summable] below). *)

From Stdlib Require Import ZArith List String Ascii Bool Lia.
From Stdlib Require Import Sorting.Sorted.
From Stdlib Require DecimalString Finite.
Import ListNotations.

Local Open Scope string_scope.
Local Open Scope Z_scope.

(** ** Python strings *)

Module PyStr.

Definition code (c : ascii) : Z := Z.of_N (N_of_ascii c).

Definition newline : ascii := "010"%char.

(** [\d] on code points below 256. *)
Definition is_digit (c : ascii) : bool :=
  (48 <=? code c) && (code c <=? 57).

Definition digit_value (c : ascii) : Z := code c - 48.

(** Unicode white space below code point 256, as [str.strip] and [int]
    see it. *)
Definition is_space (c : ascii) : bool :=
  ((9 <=? code c) && (code c <=? 13))
  || ((28 <=? code c) && (code c <=? 32))
  || (code c =? 133) || (code c =? 160).

Fixpoint lstrip (s : string) : string :=
  match s with
  | String c rest => if is_space c then lstrip rest else s
  | EmptyString => EmptyString
  end.

Fixpoint rstrip (s : string) : string :=
  match s with
  | String c rest =>
      match rstrip rest with
      | EmptyString => if is_space c then EmptyString else String c EmptyString
      | r => String c r
      end
  | EmptyString => EmptyString
  end.

Definition strip (s : string) : string := rstrip (lstrip s).

(** [str.lower]: the cased letters below 256 are A-Z and the Latin-1
    capitals 192..222 without the multiplication sign 215. *)
Definition lower_char (c : ascii) : ascii :=
  if ((65 <=? code c) && (code c <=? 90))
     || ((192 <=? code c) && (code c <=? 222) && negb (code c =? 215))
  then ascii_of_N (Z.to_N (code c + 32))
  else c.

Fixpoint lower (s : string) : string :=
  match s with
  | String c rest => String (lower_char c) (lower rest)
  | EmptyString => EmptyString
  end.

(** [needle in hay] for two strings. *)
Fixpoint contains (needle hay : string) : bool :=
  prefix needle hay
  || match hay with
     | String _ rest => contains needle rest
     | EmptyString => false
     end.

(** [s.split(sep)] for a one-character separator. *)
Fixpoint split (sep : ascii) (s : string) : list string :=
  match s with
  | EmptyString => [EmptyString]
  | String c rest =>
      if Ascii.eqb c sep then EmptyString :: split sep rest
      else match split sep rest with
           | w :: ws => String c w :: ws
           | [] => [String c EmptyString]
           end
  end.

Fixpoint digits_value (acc : Z) (s : string) : option Z :=
  match s with
  | EmptyString => Some acc
  | String c rest =>
      if is_digit c then digits_value (10 * acc + digit_value c) rest
      else None
  end.

(** [int(s)] on a string: surrounding white space is dropped, a sign is
    allowed, then at least one decimal digit; [None] is [ValueError].
    (Digit groups joined by underscores are not covered; no caller in
    this development can pass one.) *)
Definition int (s : string) : option Z :=
  match strip s with
  | EmptyString => None
  | String "-" (String c r) => option_map Z.opp (digits_value 0 (String c r))
  | String "+" (String c r) => digits_value 0 (String c r)
  | String "-" EmptyString | String "+" EmptyString => None
  | body => digits_value 0 body
  end.

(** [str(n)] for an integer. *)
Definition str (n : Z) : string :=
  DecimalString.NilZero.string_of_int (Z.to_int n).

(** [f"{n:02d}"]: zero padding up to width two, the sign counted. *)
Definition format_02d (n : Z) : string :=
  if 0 <=? n then
    if n <? 10 then String "0" (str n) else str n
  else str n.

End PyStr.

(** ** utils.py *)

(** [$] without [re.MULTILINE] matches at the very end of the subject and
    also just before a newline that is its last character. *)
Definition at_end_anchor (s : string) : bool :=
  match s with
  | EmptyString => true
  | String c EmptyString => Ascii.eqb c PyStr.newline
  | _ => false
  end.

(** [\d{2}$] *)
Definition match_minutes (s : string) : bool :=
  match s with
  | String m1 (String m2 rest) =>
      PyStr.is_digit m1 && PyStr.is_digit m2 && at_end_anchor rest
  | _ => false
  end.

(** [re.match(r'^\d{1,2}:\d{2}$', time_str)]: the greedy [\d{1,2}] first
    tries two digits and falls back to one. *)
Definition re_match_time (time_str : string) : bool :=
  match time_str with
  | String h1 rest =>
      PyStr.is_digit h1
      && match rest with
         | String c rest' =>
             (PyStr.is_digit c
              && match rest' with
                 | String c' r => Ascii.eqb c' ":" && match_minutes r
                 | EmptyString => false
                 end)
             || (Ascii.eqb c ":" && match_minutes rest')
         | EmptyString => false
         end
  | EmptyString => false
  end.

Definition round_time_to_nearest_hour (time_str : string) : option string :=
  if negb (re_match_time time_str) then None
  else
    (* hours, minutes = map(int, time_str.split(':')); any exception -> None *)
    match map PyStr.int (PyStr.split ":" time_str) with
    | [Some hours; Some minutes] =>
        if (hours <? 0) || (hours >? 23) || (minutes <? 0) || (minutes >? 59)
        then None
        else
          let hours := if minutes >=? 30 then (hours + 1) mod 24 else hours in
          Some (PyStr.format_02d hours ++ ":00")
    | _ => None
    end.

(** An on-the-hour time, as [round_time_to_nearest_hour] prints it. *)
Definition on_the_hour (h : Z) : string := PyStr.format_02d h ++ ":00".

(** ** tools.py: the restaurant catalog *)

(** One entry of [restaurant.json], with the keys the code reads. *)
Record restaurant := {
  r_id : string;
  r_name : string;
  r_tags : list string;
  r_location : string;
  r_capacity : Z
}.

(** What [find_restaurant] hands to [json.dumps] under the key
    ["result"]: a message, or the list [result_data]. *)
Inductive find_result :=
| NoResult (message : string)
| ResultData (result_data : list restaurant).

(** ** tools.py: the reservations table *)

(** A row of the table [reservations] ([created_at] is left out: nothing
    reads it). *)
Record reservation := {
  res_id : Z;
  res_restaurant_id : string;
  res_booking_date : string;
  res_booking_time : string;
  res_party_size : Z;
  res_user_name : string;
  res_user_phone : string
}.

(** The rows committed to [bookings.db]. *)
Definition ledger := list reservation.

(** An open [sqlite3] connection: the committed rows of the file, and the
    rows as the open transaction sees them, when there is one. *)
Record connection := {
  committed : ledger;
  transaction : option ledger
}.

(** Code that runs on a connection, and code that runs on the file. *)
Definition Conn (A : Type) : Type := connection -> A * connection.
Definition DB (A : Type) : Type := ledger -> A * ledger.

Definition ret {S A : Type} (a : A) : S -> A * S := fun s => (a, s).

Definition bind {S A B : Type} (c : S -> A * S) (k : A -> S -> B * S)
  : S -> B * S :=
  fun s => let (a, s') := c s in k a s'.

Notation "x <- c ;; k" := (bind c (fun x => k))
  (at level 61, c at next level, right associativity).
Notation "c ;;; k" := (bind c (fun _ => k))
  (at level 61, right associativity).

(** [conn = sqlite3.connect(DB_PATH)] ... [conn.close()]: closing drops a
    transaction that was not committed. *)
Definition with_connection {A : Type} (body : Conn A) : DB A :=
  fun db =>
    let (a, c) := body {| committed := db; transaction := None |} in
    (a, committed c).

Definition visible_rows (c : connection) : ledger :=
  match transaction c with
  | Some rows => rows
  | None => committed c
  end.

(** [conn.execute('BEGIN EXCLUSIVE')] *)
Definition begin_exclusive : Conn unit :=
  fun c => (tt, {| committed := committed c; transaction := Some (visible_rows c) |}).

(** [conn.commit()] *)
Definition commit : Conn unit :=
  fun c => (tt, {| committed := visible_rows c; transaction := None |}).

(** [conn.rollback()] *)
Definition rollback : Conn unit :=
  fun c => (tt, {| committed := committed c; transaction := None |}).

(** [WHERE restaurant_id = ? AND booking_date = ? AND booking_time = ?] *)
Definition in_slot (restaurant_id date time : string) (row : reservation) : bool :=
  String.eqb (res_restaurant_id row) restaurant_id
  && String.eqb (res_booking_date row) date
  && String.eqb (res_booking_time row) time.

Definition slot_rows (restaurant_id date time : string) (rows : ledger) : ledger :=
  filter (in_slot restaurant_id date time) rows.

Definition sum_party_size (rows : ledger) : Z :=
  fold_right (fun row acc => res_party_size row + acc) 0 rows.

(** [SELECT SUM(party_size) ...]: SQL's [SUM] over no row is [NULL]. *)
Definition sql_sum_party_size (restaurant_id date time : string) (rows : ledger)
  : option Z :=
  match slot_rows restaurant_id date time rows with
  | [] => None
  | matching => Some (sum_party_size matching)
  end.

Definition select_sum_party_size (restaurant_id date time : string)
  : Conn (option Z) :=
  fun c => (sql_sum_party_size restaurant_id date time (visible_rows c), c).

(** The result of an operation that may raise; [Raised e] carries
    [str(e)]. *)
Inductive outcome (A : Type) :=
| Returned (a : A)
| Raised (e : string).

Arguments Returned {A} a.
Arguments Raised {A} e.

(** The largest integer SQLite stores, and the largest row id: 2^63 - 1. *)
Definition max_int64 : Z := 9223372036854775807.

(** [INTEGER PRIMARY KEY AUTOINCREMENT]: one more than the largest id. *)
Definition next_rowid (rows : ledger) : Z :=
  1 + fold_right (fun row acc => Z.max (res_id row) acc) 0 rows.

(** [INSERT INTO reservations ... VALUES (?, ?, ?, ?, ?, ?)], giving
    [cursor.lastrowid].  Binding a party size beyond 64 bits raises
    [OverflowError]; once the largest row id is taken, SQLite refuses the
    row with [SQLITE_FULL], which [sqlite3] raises as [OperationalError]. *)
Definition insert_reservation
  (restaurant_id date time : string) (party_size : Z) (user_name user_phone : string)
  : Conn (outcome Z) :=
  fun c =>
    let rows := visible_rows c in
    if (party_size <? - max_int64 - 1) || (party_size >? max_int64) then
      (Raised "Python int too large to convert to SQLite INTEGER", c)
    else
      let rowid := next_rowid rows in
      if rowid >? max_int64 then
        (Raised "database or disk is full", c)
      else
        let row := {| res_id := rowid;
                      res_restaurant_id := restaurant_id;
                      res_booking_date := date;
                      res_booking_time := time;
                      res_party_size := party_size;
                      res_user_name := user_name;
                      res_user_phone := user_phone |} in
        (Returned rowid,
         {| committed := committed c; transaction := Some (rows ++ [row])%list |}).

(** The dictionary [check_availability] serialises; the two capacity keys
    are present only in the report computed from the table. *)
Record availability_result := {
  available : bool;
  av_restaurant_id : string;
  av_date : string;
  av_time : string;
  av_party_size : Z;
  restaurant_capacity : option Z;
  available_capacity : option Z;
  av_message : string
}.

(** The dictionary [make_reservation] serialises; [reservation_id] and
    [restaurant_name] are present only on success. *)
Record booking_result := {
  success : bool;
  reservation_id : option string;
  bk_restaurant_id : string;
  restaurant_name : option string;
  bk_date : string;
  bk_time : string;
  bk_party_size : Z;
  bk_user_name : string;
  bk_user_phone : string;
  bk_message : string
}.

Section Tools.

(** [ALL_RESTAURANTS = load_restaurants()], the content of
    [restaurant.json]. *)
Variable ALL_RESTAURANTS : list restaurant.

(** Truth value of an optional argument: [None], [""], [[]] and [0] are
    false. *)
Definition truthy_str (o : option string) : bool :=
  match o with
  | Some s => negb (String.eqb s "")
  | None => false
  end.

Definition truthy_list {A : Type} (o : option (list A)) : bool :=
  match o with
  | Some (_ :: _) => true
  | _ => false
  end.

Definition truthy_int (o : option Z) : bool :=
  match o with
  | Some n => negb (n =? 0)
  | None => false
  end.

Definition get_str (o : option string) : string :=
  match o with Some s => s | None => "" end.

Definition get_list {A : Type} (o : option (list A)) : list A :=
  match o with Some l => l | None => [] end.

Definition get_int (o : option Z) : Z :=
  match o with Some n => n | None => 0 end.

(** [any(tag.lower() in [t.lower() for t in restaurant['tags']] for tag in tags)] *)
Definition any_tag_matches (tags : list string) (restaurant_tags : list string) : bool :=
  existsb
    (fun tag =>
       existsb (String.eqb (PyStr.lower tag)) (map PyStr.lower restaurant_tags))
    tags.

(** The body of the loop over [ALL_RESTAURANTS]: the final [is_match]. *)
Definition is_match
  (name location : option string) (tags : option (list string))
  (party_size : option Z) (restaurant : restaurant) : bool :=
  let is_match := true in
  let is_match :=
    if truthy_str name
       && negb (PyStr.contains (PyStr.lower (get_str name)) (PyStr.lower (r_name restaurant)))
    then false else is_match in
  let is_match :=
    if truthy_str location && is_match then
      if negb (PyStr.contains (PyStr.lower (get_str location))
                 (PyStr.lower (r_location restaurant)))
      then false else is_match
    else is_match in
  let is_match :=
    if truthy_list tags && is_match then
      if negb (any_tag_matches (get_list tags) (r_tags restaurant))
      then false else is_match
    else is_match in
  let is_match :=
    if truthy_int party_size && is_match then
      if get_int party_size <=? 0 then false
      else if get_int party_size >? r_capacity restaurant then false
      else is_match
    else is_match in
  is_match.

(** The list [matches] at the end of the loop. *)
Definition find_matches
  (name location : option string) (tags : option (list string))
  (party_size : option Z) : list restaurant :=
  filter (is_match name location tags party_size) ALL_RESTAURANTS.

Definition find_restaurant
  (name location : option string) (tags : option (list string))
  (party_size : option Z) : find_result :=
  match find_matches name location tags party_size with
  | [] => NoResult "No restaurants found matching your criteria."
  | matches =>
      ResultData
        (map (fun restaurant =>
                {| r_id := r_id restaurant;
                   r_name := r_name restaurant;
                   r_tags := r_tags restaurant;
                   r_location := r_location restaurant;
                   r_capacity := r_capacity restaurant |})
           matches)
  end.

(** [for r in ALL_RESTAURANTS: if r["id"] == restaurant_id: ...; break] *)
Definition lookup_restaurant (restaurant_id : string) : option restaurant :=
  find (fun r => String.eqb (r_id r) restaurant_id) ALL_RESTAURANTS.

(** The dictionary of an early refusal of [check_availability]. *)
Definition refusal (restaurant_id date time : string) (party_size : Z)
  (message : string) : availability_result :=
  {| available := false;
     av_restaurant_id := restaurant_id;
     av_date := date;
     av_time := time;
     av_party_size := party_size;
     restaurant_capacity := None;
     available_capacity := None;
     av_message := message |}.

Definition availability_message
  (is_available : bool) (total_booked restaurant_capacity available_capacity
   party_size : Z) (rounded_time : string) : string :=
  if is_available then "Tables are available at this time!"
  else if total_booked =? restaurant_capacity then
    "Sorry, the restaurant is fully booked at " ++ rounded_time ++ "."
  else if available_capacity >? 0 then
    "Sorry, we only have space for " ++ PyStr.str available_capacity
    ++ " more people at " ++ rounded_time ++ ", not " ++ PyStr.str party_size ++ "."
  else
    "Sorry, we don't have availability for " ++ PyStr.str party_size
    ++ " people at " ++ rounded_time ++ ".".

Definition check_availability
  (restaurant_id date time : string) (party_size : Z) : DB availability_result :=
  if party_size <=? 0 then
    ret (refusal restaurant_id date time party_size
           "Party size must be a positive number.")
  else
    match lookup_restaurant restaurant_id with
    | None =>
        ret (refusal restaurant_id date time party_size
               ("Restaurant with ID " ++ restaurant_id ++ " not found."))
    | Some restaurant =>
        let restaurant_capacity := r_capacity restaurant in
        if party_size >? restaurant_capacity then
          ret (refusal restaurant_id date time party_size
                 ("Sorry, this restaurant can only accommodate up to "
                  ++ PyStr.str restaurant_capacity ++ " people in total."))
        else
          match round_time_to_nearest_hour time with
          | None =>
              ret (refusal restaurant_id date time party_size
                     "Invalid time format. Please use HH:MM format.")
          | Some rounded_time =>
              result <- with_connection
                          (select_sum_party_size restaurant_id date rounded_time) ;;
              let total_booked := match result with Some n => n | None => 0 end in
              let available_capacity := restaurant_capacity - total_booked in
              let is_available := available_capacity >=? party_size in
              ret {| available := is_available;
                     av_restaurant_id := restaurant_id;
                     av_date := date;
                     av_time := rounded_time;
                     av_party_size := party_size;
                     restaurant_capacity := Some restaurant_capacity;
                     available_capacity := Some available_capacity;
                     av_message :=
                       availability_message is_available total_booked
                         restaurant_capacity available_capacity party_size
                         rounded_time |}
          end
    end.

(** The dictionary of a refused booking. *)
Definition booking_failure
  (restaurant_id date time : string) (party_size : Z)
  (user_name user_phone message : string) : booking_result :=
  {| success := false;
     reservation_id := None;
     bk_restaurant_id := restaurant_id;
     restaurant_name := None;
     bk_date := date;
     bk_time := time;
     bk_party_size := party_size;
     bk_user_name := user_name;
     bk_user_phone := user_phone;
     bk_message := message |}.

(** The [try] block of [make_reservation], on the open connection, with
    its [except Exception]: reached from [restaurant["capacity"]] on
    [None] and from an [INSERT] that raises. *)
Definition reserve_in_transaction
  (restaurant_id date rounded_time : string) (party_size : Z)
  (user_name user_phone : string) : Conn booking_result :=
  begin_exclusive ;;;
  result <- select_sum_party_size restaurant_id date rounded_time ;;
  let total_booked := match result with Some n => n | None => 0 end in
  match lookup_restaurant restaurant_id with
  | None =>
      rollback ;;;
      ret (booking_failure restaurant_id date rounded_time party_size
             user_name user_phone
             "Failed to make reservation: 'NoneType' object is not subscriptable")
  | Some restaurant =>
      let restaurant_capacity := r_capacity restaurant in
      let available_capacity := restaurant_capacity - total_booked in
      if available_capacity <? party_size then
        rollback ;;;
        ret (booking_failure restaurant_id date rounded_time party_size
               user_name user_phone
               ("Sorry, the restaurant became fully booked while processing your reservation. Only "
                ++ PyStr.str available_capacity ++ " seats available."))
      else
        inserted <- insert_reservation restaurant_id date rounded_time
                      party_size user_name user_phone ;;
        match inserted with
        | Raised e =>
            rollback ;;;
            ret (booking_failure restaurant_id date rounded_time party_size
                   user_name user_phone ("Failed to make reservation: " ++ e))
        | Returned reservation_id =>
            commit ;;;
            let restaurant_name := r_name restaurant in
            ret {| success := true;
                   reservation_id := Some ("res" ++ PyStr.str reservation_id);
                   bk_restaurant_id := restaurant_id;
                   restaurant_name := Some restaurant_name;
                   bk_date := date;
                   bk_time := rounded_time;
                   bk_party_size := party_size;
                   bk_user_name := user_name;
                   bk_user_phone := user_phone;
                   bk_message :=
                     "Your reservation at " ++ restaurant_name ++ " for "
                     ++ PyStr.str party_size ++ " people on " ++ date ++ " at "
                     ++ rounded_time ++ " has been confirmed!" |}
        end
  end.

Definition make_reservation
  (restaurant_id date time : string) (party_size : Z)
  (user_name user_phone : string) : DB booking_result :=
  if String.eqb user_name "" || String.eqb user_phone "" then
    ret (booking_failure restaurant_id date time party_size user_name user_phone
           "Name and phone number are required for reservation.")
  else
    availability_result <- check_availability restaurant_id date time party_size ;;
    if negb (available availability_result) then
      ret (booking_failure restaurant_id date time party_size user_name user_phone
             (av_message availability_result))
    else
      let rounded_time := av_time availability_result in
      with_connection
        (reserve_in_transaction restaurant_id date rounded_time party_size
           user_name user_phone).

End Tools.

(** ** utils.py: the prompt *)

(** A turn of the history: [{"role": ..., "content": ...}]. *)
Record message := {
  role : string;
  content : string
}.

Definition nl : string := String PyStr.newline "".

(** The index of the first message of role ["user"], or 0. *)
Fixpoint first_user_index (i : nat) (messages : list message) : option nat :=
  match messages with
  | [] => None
  | m :: rest =>
      if String.eqb (role m) "user" then Some i
      else first_user_index (S i) rest
  end.

(** The second loop of [format_history_for_gemma], from index [i] on. *)
Fixpoint format_turns (first_user_msg_idx : nat) (initial_instructions : string)
  (i : nat) (messages : list message) : string :=
  match messages with
  | [] => ""
  | m :: rest =>
      let role := if String.eqb (role m) "assistant" then "model" else "user" in
      let content :=
        if Nat.eqb i first_user_msg_idx && String.eqb role "user"
        then initial_instructions ++ nl ++ content m
        else content m in
      "<start_of_turn>" ++ role ++ nl ++ content ++ "<end_of_turn>" ++ nl
      ++ format_turns first_user_msg_idx initial_instructions (S i) rest
  end.

Definition format_history_for_gemma (messages : list message)
  (initial_instructions : string) : string :=
  match messages with
  | [] =>
      "<start_of_turn>user" ++ nl ++ initial_instructions ++ "<end_of_turn>" ++ nl
      ++ "<start_of_turn>model" ++ nl
  | _ =>
      let first_user_msg_idx :=
        match first_user_index 0 messages with
        | Some i => i
        | None => 0%nat
        end in
      format_turns first_user_msg_idx initial_instructions 0 messages
      ++ "<start_of_turn>model" ++ nl
  end.

(** ** app.py: the sequential tool-calling loop *)

(** A value decoded by [json.loads] (numbers with a fraction are left
    out); [JNull] is also the [None] that [extract_function_call] returns
    when it finds no directive. *)
#[warnings="-register-all"]
Inductive json :=
| JNull
| JBool (b : bool)
| JInt (n : Z)
| JStr (s : string)
| JList (items : list json)
| JDict (entries : list (string * json)).

(** Truth value of a decoded value, as [if function_call:] takes it. *)
Definition truthy (v : json) : bool :=
  match v with
  | JNull => false
  | JBool b => b
  | JInt n => negb (n =? 0)
  | JStr s => negb (String.eqb s "")
  | JList items => match items with [] => false | _ => true end
  | JDict entries => match entries with [] => false | _ => true end
  end.

(** [d.get(key, default)] *)
Fixpoint dict_get (entries : list (string * json)) (key : string) (default : json)
  : json :=
  match entries with
  | [] => default
  | (k, v) :: rest => if String.eqb k key then v else dict_get rest key default
  end.

(** [key in d] *)
Definition dict_has (entries : list (string * json)) (key : string) : bool :=
  existsb (fun kv => String.eqb (fst kv) key) entries.

(** [d[key] = v]: the value is replaced in place, or the key appended. *)
Fixpoint dict_set (entries : list (string * json)) (key : string) (v : json)
  : list (string * json) :=
  match entries with
  | [] => [(key, v)]
  | (k, old) :: rest =>
      if String.eqb k key then (k, v) :: rest
      else (k, old) :: dict_set rest key v
  end.

(** The places of the loop where the interpreter itself raises, with the
    value at fault. *)
Inductive runtime_error :=
| NoGetAttribute (v : json)     (* function_call.get on a value that is no dict *)
| Unhashable (v : json)         (* function_name in tools.tool_map *)
| NotIterable (v : json)        (* "time" in parameters *)
| NotSubscriptable (v : json)   (* parameters["time"] *)
| NotAString (v : json)         (* re.match on a value that is no string *)
| NotAMapping (v : json)        (* tool_function called with ** on parameters *)
| NoSuchKey (v : json).         (* tools.tool_map[function_name] *)

(** An entry of [tools.tool_map]: a function called with keyword
    arguments, which returns a string or raises, on the bookings file. *)
Definition tool : Type := list (string * json) -> DB (outcome string).

(** The variables of the block that handles one user input. *)
Record session := {
  llm_messages : list message;
  tool_call_count : Z;
  final_assistant_response : option string;
  bookings : ledger
}.

(** How an iteration of the [while] loop ends. *)
Inductive control := Continue | Break.

Definition MAX_SEQUENTIAL_CALLS : Z := 4.

Section Orchestrator.

(** [prompts.AGENT_INITIAL_INSTRUCTIONS] *)
Variable AGENT_INITIAL_INSTRUCTIONS : string.

(** [model.generate_content(formatted_history, ...).text], or the
    exception of the service. *)
Variable generate_content : string -> outcome string.

(** [clean_response_text] and [extract_function_call]: their regular
    expressions and [json.loads] are not unfolded; the loop is described
    for whatever they compute. *)
Variable clean_response_text : string -> string.
Variable extract_function_call : string -> json.

(** [str(e)] for an exception raised by the interpreter. *)
Variable error_text : runtime_error -> string.

(** [tools.tool_map] *)
Variable tool_map : list (string * tool).

Definition assistant (text : string) : message :=
  {| role := "assistant"; content := text |}.

Definition user (text : string) : message :=
  {| role := "user"; content := text |}.

(** [function_name in tools.tool_map]: the name is hashed first. *)
Definition in_tool_map (function_name : json) : outcome bool :=
  match function_name with
  | JStr n => Returned (existsb (fun entry => String.eqb (fst entry) n) tool_map)
  | JNull | JBool _ | JInt _ => Returned false
  | JList _ | JDict _ => Raised (error_text (Unhashable function_name))
  end.

(** [f"{function_name}"] for a name that could be hashed (with a list or
    a dictionary for a name the membership test has raised before). *)
Definition format_name (function_name : json) : string :=
  match function_name with
  | JStr n => n
  | JNull => "None"
  | JBool true => "True"
  | JBool false => "False"
  | JInt n => PyStr.str n
  | JList _ | JDict _ => ""
  end.

(** [utils.round_time_to_nearest_hour(time_param)] on a decoded value. *)
Definition round_time_param (time_param : json) : outcome (option string) :=
  match time_param with
  | JStr t => Returned (round_time_to_nearest_hour t)
  | other => Raised (error_text (NotAString other))
  end.

(** Lines 153-157: [if "time" in parameters: ...]. *)
Definition normalize_time (parameters : json) : outcome json :=
  match parameters with
  | JDict entries =>
      if dict_has entries "time" then
        let time_param := dict_get entries "time" JNull in
        match round_time_param time_param with
        | Raised e => Raised e
        | Returned (Some rounded_time) =>
            if String.eqb rounded_time "" then Returned parameters
            else Returned (JDict (dict_set entries "time" (JStr rounded_time)))
        | Returned None => Returned parameters
        end
      else Returned parameters
  | JList items =>
      if existsb (fun v => match v with JStr t => String.eqb t "time" | _ => false end)
           items
      then Raised (error_text (NotSubscriptable parameters))
      else Returned parameters
  | JStr text =>
      if PyStr.contains "time" text
      then Raised (error_text (NotSubscriptable parameters))
      else Returned parameters
  | JNull | JBool _ | JInt _ => Raised (error_text (NotIterable parameters))
  end.

Fixpoint lookup_tool (entries : list (string * tool)) (n : string) : option tool :=
  match entries with
  | [] => None
  | (k, f) :: rest => if String.eqb k n then Some f else lookup_tool rest n
  end.

(** The inner [try]: the entry of [tools.tool_map] under [function_name],
    called with [parameters] as its keyword arguments. *)
Definition call_tool (function_name parameters : json) : DB (outcome string) :=
  match function_name with
  | JStr n =>
      match lookup_tool tool_map n with
      | Some tool_function =>
          match parameters with
          | JDict entries => tool_function entries
          | other => ret (Raised (error_text (NotAMapping other)))
          end
      | None => ret (Raised (error_text (NoSuchKey function_name)))
      end
  | other => ret (Raised (error_text (NoSuchKey other)))
  end.

Definition append_turns (s : session) (turns : list message) : session :=
  {| llm_messages := (llm_messages s ++ turns)%list;
     tool_call_count := tool_call_count s;
     final_assistant_response := final_assistant_response s;
     bookings := bookings s |}.

Definition count_call (s : session) : session :=
  {| llm_messages := llm_messages s;
     tool_call_count := tool_call_count s + 1;
     final_assistant_response := final_assistant_response s;
     bookings := bookings s |}.

Definition answer (s : session) (text : string) : session :=
  {| llm_messages := llm_messages s;
     tool_call_count := tool_call_count s;
     final_assistant_response := Some text;
     bookings := bookings s |}.

Definition with_bookings (s : session) (db : ledger) : session :=
  {| llm_messages := llm_messages s;
     tool_call_count := tool_call_count s;
     final_assistant_response := final_assistant_response s;
     bookings := db |}.

(** The outer [except Exception as e]. *)
Definition generation_error (s : session) (e : string) : control * session :=
  (Break, answer s ("Error generating response: " ++ e)).

(** The branch [if function_call:]. *)
Definition handle_function_call (s : session) (assistant_response : string)
  (function_call : json) : control * session :=
  match function_call with
  | JDict entries =>
      let function_name := dict_get entries "name" JNull in
      let parameters := dict_get entries "parameters" (JDict []) in
      match in_tool_map function_name with
      | Raised e => generation_error s e
      | Returned true =>
          match normalize_time parameters with
          | Raised e => generation_error s e
          | Returned parameters =>
              let (result, db) := call_tool function_name parameters (bookings s) in
              let s := with_bookings s db in
              match result with
              | Returned tool_result =>
                  (Continue,
                   count_call
                     (append_turns s
                        [assistant assistant_response;
                         user ("Function result: " ++ tool_result)]))
              | Raised e =>
                  (Continue,
                   count_call
                     (append_turns s
                        [assistant assistant_response;
                         user ("Error calling function: " ++ e)]))
              end
          end
      | Returned false =>
          (Break,
           answer
             (append_turns s
                [assistant assistant_response;
                 user ("Invalid function name: " ++ format_name function_name)])
             assistant_response)
      end
  | other => generation_error s (error_text (NoGetAttribute other))
  end.

(** One pass through the body of the [while] loop. *)
Definition iteration (s : session) : control * session :=
  let formatted_history :=
    format_history_for_gemma (llm_messages s) AGENT_INITIAL_INSTRUCTIONS in
  match generate_content formatted_history with
  | Raised e => generation_error s e
  | Returned text =>
      let assistant_response := clean_response_text text in
      let function_call := extract_function_call assistant_response in
      if truthy function_call then
        handle_function_call s assistant_response function_call
      else
        (Break, append_turns (answer s assistant_response)
                  [assistant assistant_response])
  end.

(** [while tool_call_count < MAX_SEQUENTIAL_CALLS: ...], with [fuel]
    bounding the number of passes; [None] when the fuel runs out. *)
Fixpoint sequential_loop (fuel : nat) (limit : Z) (s : session) : option session :=
  if tool_call_count s <? limit then
    match fuel with
    | O => None
    | S fuel' =>
        match iteration s with
        | (Break, s') => Some s'
        | (Continue, s') => sequential_loop fuel' limit s'
        end
    end
  else Some s.

(** The block run on a user input, up to the display of the answer: the
    history of earlier turns and the bookings file come in, the final
    session comes out.  [final_assistant_response] is what [st.write]
    shows. *)
Definition handle_user_input (user_input : string) (history : list message)
  (db : ledger) : option session :=
  sequential_loop (Z.to_nat MAX_SEQUENTIAL_CALLS) MAX_SEQUENTIAL_CALLS
    {| llm_messages := (history ++ [user user_input])%list;
       tool_call_count := 0;
       final_assistant_response := None;
       bookings := db |}.

End Orchestrator.

(** ** tools.py: the tag vocabulary *)

(** [tags = set()] filled by [tags.update(restaurant['tags'])]: a list that
    holds every tag once.  (The order in which Python walks a set is not
    fixed; [sorted] below makes the result independent of it.) *)
Fixpoint set_of (tags : list string) : list string :=
  match tags with
  | [] => []
  | tag :: rest =>
      if existsb (String.eqb tag) rest then set_of rest else tag :: set_of rest
  end.

Fixpoint insert_sorted (tag : string) (sorted_tags : list string) : list string :=
  match sorted_tags with
  | [] => [tag]
  | t :: rest =>
      if String.leb tag t then tag :: sorted_tags
      else t :: insert_sorted tag rest
  end.

(** [sorted(...)] on strings: ascending by code points. *)
Definition sorted (tags : list string) : list string :=
  fold_right insert_sorted [] tags.

Definition generate_tag_list (ALL_RESTAURANTS : list restaurant) : list string :=
  sorted (set_of (flat_map r_tags ALL_RESTAURANTS)).

(** ** app.py: cleaning the reply and extracting the directive *)

(** [s[n:]] *)
Fixpoint drop (n : nat) (s : string) : string :=
  match n, s with
  | O, _ => s
  | S n', String _ rest => drop n' rest
  | S _, EmptyString => EmptyString
  end.

(** Only white space, as the class [\s] has it. *)
Fixpoint all_space (s : string) : bool :=
  match s with
  | EmptyString => true
  | String c rest => PyStr.is_space c && all_space rest
  end.

(** [re.sub(r'<end_of_turn>\s*$', '', text)]: the pattern matches at the
    first place from which the mark and then nothing but white space run
    to the end, and the match takes all of it. *)
Fixpoint sub_end_of_turn (text : string) : string :=
  if prefix "<end_of_turn>" text && all_space (drop 13 text) then EmptyString
  else
    match text with
    | String c rest => String c (sub_end_of_turn rest)
    | EmptyString => EmptyString
    end.

(** [re.sub(mark + r'\s*', '', text)], scanning from the left: a match
    takes the mark and the white space after it, and the scan goes on
    behind the match.  Every step uses up a character, so [fuel] above the
    length of [text] is never exhausted. *)
Fixpoint sub_mark_from (mark : string) (fuel : nat) (text : string) : string :=
  match fuel with
  | O => text
  | S fuel' =>
      if prefix mark text
      then sub_mark_from mark fuel' (PyStr.lstrip (drop (String.length mark) text))
      else
        match text with
        | String c rest => String c (sub_mark_from mark fuel' rest)
        | EmptyString => EmptyString
        end
  end.

Definition sub_mark (mark text : string) : string :=
  sub_mark_from mark (S (String.length text)) text.

(** The string without its last character, and that character. *)
Fixpoint split_last (s : string) : option (string * ascii) :=
  match s with
  | EmptyString => None
  | String c rest =>
      match split_last rest with
      | Some (init, last) => Some (String c init, last)
      | None => Some (EmptyString, c)
      end
  end.

Fixpoint has_newline (s : string) : bool :=
  match s with
  | EmptyString => false
  | String c rest => Ascii.eqb c PyStr.newline || has_newline rest
  end.

(** The fourth [re.sub] of [clean_response_text], which replaces a text
    wrapped in parentheses by what they hold.  Its pattern is anchored at
    both ends: white space, an opening parenthesis, a greedy group of
    characters other than the line feed, a closing parenthesis, white
    space.  It matches the whole text when the first character that is no
    white space is an opening parenthesis, the last one a closing
    parenthesis, and no line feed stands between the two; the group, which
    is kept, is the text between them. *)
Definition unwrap_parentheses (text : string) : string :=
  match PyStr.lstrip text with
  | String c body =>
      if Ascii.eqb c "(" then
        match split_last (PyStr.rstrip body) with
        | Some (inner, last) =>
            if Ascii.eqb last ")" && negb (has_newline inner) then inner else text
        | None => text
        end
      else text
  | EmptyString => text
  end.

Definition clean_response_text (text : string) : string :=
  let text := sub_end_of_turn text in
  let text := sub_mark "<start_of_turn>model" text in
  let text := sub_mark "<start_of_turn>user" text in
  let text := unwrap_parentheses text in
  PyStr.strip text.

Definition quote : ascii := "034"%char.

(** The key as the pattern has it, between double quotes. *)
Definition function_call_key : string :=
  String quote ("function_call" ++ String quote EmptyString).

(** The text from the first occurrence of [c] on. *)
Fixpoint from_first (c : ascii) (s : string) : option string :=
  match s with
  | EmptyString => None
  | String a rest => if Ascii.eqb a c then Some s else from_first c rest
  end.

(** The text up to the last occurrence of [c]. *)
Fixpoint upto_last (c : ascii) (s : string) : option string :=
  match s with
  | EmptyString => None
  | String a rest =>
      match upto_last c rest with
      | Some kept => Some (String a kept)
      | None => if Ascii.eqb a c then Some (String a EmptyString) else None
      end
  end.

(** [re.search(r'\{.*"function_call".*\}', text, re.DOTALL)], giving
    [match.group(0)]: with both stars greedy and the dot matching every
    character, the match runs from the first opening brace to the last
    closing brace of the text, and there is one when the key stands
    between the two. *)
Definition search_function_call (text : string) : option string :=
  match from_first "{" text with
  | Some (String brace inner) =>
      match upto_last "}" inner with
      | Some closed =>
          match split_last closed with
          | Some (between, _) =>
              if PyStr.contains function_call_key between
              then Some (String brace closed)
              else None
          | None => None
          end
      | None => None
      end
  | _ => None
  end.

Section Extractor.

(** [json.loads]; [None] is [json.JSONDecodeError].  A dictionary comes
    with each key once. *)
Variable json_loads : string -> option json.

(** The two exceptions caught give [None], here [JNull]: a text that is no
    JSON, and [.get] on a decoded value that is no dictionary. *)
Definition extract_function_call (text : string) : json :=
  match search_function_call text with
  | Some json_str =>
      match json_loads json_str with
      | Some (JDict function_call_data) =>
          dict_get function_call_data "function_call" JNull
      | Some _ => JNull
      | None => JNull
      end
  | None => JNull
  end.

End Extractor.

(** ** Vocabulary of the properties *)

(** Seats booked in a slot: the [total_booked] both functions compute. *)
Definition total_booked (restaurant_id date time : string) (rows : ledger) : Z :=
  match sql_sum_party_size restaurant_id date time rows with
  | Some n => n
  | None => 0
  end.

(** A refusal: a negative answer that carries no capacity figure. *)
Definition is_refusal (res : availability_result) : Prop :=
  available res = false
  /\ restaurant_capacity res = None
  /\ available_capacity res = None.

(** A report computed from the table for the rounded slot. *)
Definition is_report (catalog : list restaurant)
  (restaurant_id date time : string) (party_size : Z) (db : ledger)
  (res : availability_result) : Prop :=
  exists restaurant rounded_time,
    lookup_restaurant catalog restaurant_id = Some restaurant
    /\ round_time_to_nearest_hour time = Some rounded_time
    /\ let remaining :=
         r_capacity restaurant - total_booked restaurant_id date rounded_time db in
       available res = (remaining >=? party_size)
       /\ available_capacity res = Some remaining.

(** The two numeric fields of a time written HH:MM, read off the string
    itself: one or two digits, a colon, two digits, and nothing after
    them. *)
Definition hh_mm_fields (t : string) : option (Z * Z) :=
  match t with
  | String c1 (String c2 (String c3 (String c4 EmptyString))) =>
      if PyStr.is_digit c1 && Ascii.eqb c2 ":" && PyStr.is_digit c3
         && PyStr.is_digit c4
      then Some (PyStr.digit_value c1,
                 10 * PyStr.digit_value c3 + PyStr.digit_value c4)
      else None
  | String c1 (String c2 (String c3 (String c4 (String c5 EmptyString)))) =>
      if PyStr.is_digit c1 && PyStr.is_digit c2 && Ascii.eqb c3 ":"
         && PyStr.is_digit c4 && PyStr.is_digit c5
      then Some (10 * PyStr.digit_value c1 + PyStr.digit_value c2,
                 10 * PyStr.digit_value c4 + PyStr.digit_value c5)
      else None
  | _ => None
  end.

(** A time that parses as valid HH:MM: two numeric fields separated by a
    colon, the hour in 0..23 and the minute in 0..59.  The definition does
    not go through [round_time_to_nearest_hour]. *)
Definition valid_hh_mm (t : string) : bool :=
  match hh_mm_fields t with
  | Some (hour, minute) => (hour <=? 23) && (minute <=? 59)
  | None => false
  end.

(** A valid HH:MM followed by one line feed: the strings that
    [round_time_to_nearest_hour] takes as the time in front of the line
    feed, although they are not valid HH:MM. *)
Definition valid_hh_mm_then_line_feed (t : string) : bool :=
  match split_last t with
  | Some (init, last) => Ascii.eqb last PyStr.newline && valid_hh_mm init
  | None => false
  end.

(** A table whose party sizes SQLite can add up: none is negative and all
    of them together stay within 64 bits, so that no [SUM] over some of
    its rows overflows. *)
Definition summable (rows : ledger) : Prop :=
  Forall (fun row => 0 <= res_party_size row) rows
  /\ sum_party_size rows <= max_int64.

(** A table and a party size for which the [INSERT] of [make_reservation]
    does not raise: the party size and the next row id are within 64
    bits. *)
Definition insertable (rows : ledger) (party_size : Z) : Prop :=
  - max_int64 - 1 <= party_size <= max_int64 /\ next_rowid rows <= max_int64.

(** The three grounds of refusal named by the specification. *)
Definition invalid_request (catalog : list restaurant)
  (restaurant_id time : string) (party_size : Z) : Prop :=
  party_size <= 0
  \/ lookup_restaurant catalog restaurant_id = None
  \/ valid_hh_mm time = false.

(** The grounds of refusal of the code: the three above, and a party
    larger than the whole restaurant. *)
Definition refused_request (catalog : list restaurant)
  (restaurant_id time : string) (party_size : Z) : Prop :=
  party_size <= 0
  \/ lookup_restaurant catalog restaurant_id = None
  \/ (exists restaurant,
         lookup_restaurant catalog restaurant_id = Some restaurant
         /\ party_size > r_capacity restaurant)
  \/ valid_hh_mm time = false.

(** The availability rule as the specification words it: a refusal exactly
    on an invalid request, a report from the table otherwise. *)
Definition availability_rule_as_specified (catalog : list restaurant)
  (restaurant_id date time : string) (party_size : Z) (db : ledger) : Prop :=
  let res := fst (check_availability catalog restaurant_id date time party_size db) in
  (is_refusal res <-> invalid_request catalog restaurant_id time party_size)
  /\ (~ invalid_request catalog restaurant_id time party_size ->
      is_report catalog restaurant_id date time party_size db res).

(** A one-restaurant catalog with four seats, for concrete runs. *)
Definition bistro : restaurant :=
  {| r_id := "r1"; r_name := "Bistro"; r_tags := ["french"; "wine"];
     r_location := "Downtown"; r_capacity := 4 |}.

(** The row a successful booking appends. *)
Definition booked_row (db : ledger)
  (restaurant_id date rounded_time : string) (party_size : Z)
  (user_name user_phone : string) : reservation :=
  {| res_id := next_rowid db;
     res_restaurant_id := restaurant_id;
     res_booking_date := date;
     res_booking_time := rounded_time;
     res_party_size := party_size;
     res_user_name := user_name;
     res_user_phone := user_phone |}.

(** The arguments of one [make_reservation] call. *)
Record booking_request := {
  req_restaurant_id : string;
  req_date : string;
  req_time : string;
  req_party_size : Z;
  req_user_name : string;
  req_user_phone : string
}.

Definition book (catalog : list restaurant) (req : booking_request)
  : DB booking_result :=
  make_reservation catalog (req_restaurant_id req) (req_date req) (req_time req)
    (req_party_size req) (req_user_name req) (req_user_phone req).

(** The table after a sequence of [make_reservation] calls. *)
Fixpoint run_bookings (catalog : list restaurant) (requests : list booking_request)
  (db : ledger) : ledger :=
  match requests with
  | [] => db
  | req :: rest => run_bookings catalog rest (snd (book catalog req db))
  end.


(** A directive that names an operation of the registry, with a mapping
    for parameters whose ["time"], if any, is a string. *)
Definition well_formed_directive (tool_map : list (string * tool)) (v : json) : Prop :=
  exists entries n parameters,
    v = JDict entries
    /\ dict_get entries "name" JNull = JStr n
    /\ In n (map fst tool_map)
    /\ dict_get entries "parameters" (JDict []) = JDict parameters
    /\ (dict_has parameters "time" = true ->
        exists t, dict_get parameters "time" JNull = JStr t).

(** A generation service stubbed to answer every prompt with such a
    directive. *)
Definition always_calls_a_tool
  (generate_content : string -> outcome string)
  (clean_response_text : string -> string)
  (extract_function_call : string -> json)
  (tool_map : list (string * tool)) : Prop :=
  forall prompt,
    exists text,
      generate_content prompt = Returned text
      /\ well_formed_directive tool_map
           (extract_function_call (clean_response_text text)).

(** An operation that does nothing, and a registry that holds it. *)
Definition noop : tool := fun _ => ret (Returned "{}").

Definition noop_tool_map : list (string * tool) := [("noop", noop)].

(** The two numeric fields of a time written as one or two digits, a
    colon and two digits, a final line feed allowed. *)
Definition clock_fields (t : string) : option (Z * Z) :=
  match t with
  | String c1 (String c2 (String c3 (String c4 rest))) =>
      if PyStr.is_digit c1 && Ascii.eqb c2 ":" && PyStr.is_digit c3
         && PyStr.is_digit c4 && at_end_anchor rest
      then Some (PyStr.digit_value c1,
                 10 * PyStr.digit_value c3 + PyStr.digit_value c4)
      else
        match rest with
        | String c5 rest' =>
            if PyStr.is_digit c1 && PyStr.is_digit c2 && Ascii.eqb c3 ":"
               && PyStr.is_digit c4 && PyStr.is_digit c5 && at_end_anchor rest'
            then Some (10 * PyStr.digit_value c1 + PyStr.digit_value c2,
                       10 * PyStr.digit_value c4 + PyStr.digit_value c5)
            else None
        | EmptyString => None
        end
  | _ => None
  end.

(** The rounding rule on the two fields. *)
Definition round_fields (fields : Z * Z) : option string :=
  let (hour, minute) := fields in
  if (hour <=? 23) && (minute <=? 59)
  then Some (on_the_hour (if minute >=? 30 then (hour + 1) mod 24 else hour))
  else None.

(** ** Vocabulary of the further properties *)

(** The role a message is given in the prompt. *)
Definition gemma_role (m : message) : string :=
  if String.eqb (role m) "assistant" then "model" else "user".

(** One turn of the prompt. *)
Definition turn (turn_role turn_content : string) : string :=
  "<start_of_turn>" ++ turn_role ++ nl ++ turn_content ++ "<end_of_turn>" ++ nl.

(** The turns of messages that carry no instructions. *)
Fixpoint plain_turns (messages : list message) : string :=
  match messages with
  | [] => ""
  | m :: rest => turn (gemma_role m) (content m) ++ plain_turns rest
  end.

(** The line that asks the model to speak. *)
Definition model_opener : string := "<start_of_turn>model" ++ nl.

(** The order of [sorted] on strings. *)
Definition before_or_equal (a b : string) : Prop := String.leb a b = true.
Definition strictly_before (a b : string) : Prop := String.ltb a b = true.

(** The four filters of [find_restaurant], one at a time: an absent or
    empty filter lets every restaurant through. *)
Definition name_passes (name : option string) (r : restaurant) : bool :=
  negb (truthy_str name)
  || PyStr.contains (PyStr.lower (get_str name)) (PyStr.lower (r_name r)).

Definition location_passes (location : option string) (r : restaurant) : bool :=
  negb (truthy_str location)
  || PyStr.contains (PyStr.lower (get_str location)) (PyStr.lower (r_location r)).

Definition tags_pass (tags : option (list string)) (r : restaurant) : bool :=
  negb (truthy_list tags) || any_tag_matches (get_list tags) (r_tags r).

Definition party_size_passes (party_size : option Z) (r : restaurant) : bool :=
  negb (truthy_int party_size)
  || ((0 <? get_int party_size) && (get_int party_size <=? r_capacity r)).

(** A filter that is the other one or is absent. *)
Definition same_or_absent {A : Type} (weaker stronger : option A) : Prop :=
  weaker = None \/ weaker = stronger.

(** The dictionary of a confirmed booking. *)
Definition booking_confirmation (restaurant : restaurant)
  (restaurant_id date rounded_time : string) (party_size : Z)
  (user_name user_phone : string) (rowid : Z) : booking_result :=
  {| success := true;
     reservation_id := Some ("res" ++ PyStr.str rowid);
     bk_restaurant_id := restaurant_id;
     restaurant_name := Some (r_name restaurant);
     bk_date := date;
     bk_time := rounded_time;
     bk_party_size := party_size;
     bk_user_name := user_name;
     bk_user_phone := user_phone;
     bk_message :=
       "Your reservation at " ++ r_name restaurant ++ " for "
       ++ PyStr.str party_size ++ " people on " ++ date ++ " at "
       ++ rounded_time ++ " has been confirmed!" |}.

(** A row as [make_reservation] commits them. *)
Definition well_formed_row (catalog : list restaurant) (row : reservation) : Prop :=
  exists restaurant hour,
    lookup_restaurant catalog (res_restaurant_id row) = Some restaurant
    /\ 0 < res_party_size row <= r_capacity restaurant
    /\ 0 <= hour <= 23
    /\ res_booking_time row = on_the_hour hour
    /\ res_user_name row <> ""
    /\ res_user_phone row <> "".

(** Turns that alternate between the roles assistant and user. *)
Fixpoint alternating (assistant_next : bool) (turns : list message) : Prop :=
  match turns with
  | [] => True
  | m :: rest =>
      role m = (if assistant_next then "assistant" else "user")
      /\ alternating (negb assistant_next) rest
  end.


(** [c in s] for a character. *)
Fixpoint has_char (c : ascii) (s : string) : bool :=
  match s with
  | EmptyString => false
  | String a rest => Ascii.eqb a c || has_char c rest
  end.

(** * Properties *)

(** ** Time rounding *)

Lemma on_the_hour_fixed h :
  0 <= h <= 23 ->
  round_time_to_nearest_hour (on_the_hour h) = Some (on_the_hour h).
Proof.
  intros Hh.
  assert (Hcases : In h [0;1;2;3;4;5;6;7;8;9;10;11;12;13;14;15;16;17;18;19;20;21;22;23]).
  { simpl. lia. }
  simpl in Hcases.
  repeat (destruct Hcases as [<- | Hcases]; [vm_compute; reflexivity |]).
  contradiction.
Qed.

(** Every value returned is an on-the-hour time of the day. *)
Lemma round_time_result time_str r :
  round_time_to_nearest_hour time_str = Some r ->
  exists h, 0 <= h <= 23 /\ r = on_the_hour h.
Proof.
  unfold round_time_to_nearest_hour.
  destruct (re_match_time time_str); simpl; [| discriminate].
  destruct (map PyStr.int (PyStr.split ":" time_str)) as [| [hours |] [| [minutes |] [| ? ?]]];
    try discriminate.
  destruct (hours <? 0) eqn:H1; [discriminate |].
  destruct (hours >? 23) eqn:H2; [discriminate |].
  destruct (minutes <? 0) eqn:H3; [discriminate |].
  destruct (minutes >? 59) eqn:H4; [discriminate |].
  simpl. intros [= <-].
  apply Z.ltb_ge in H1. rewrite Z.gtb_ltb in H2. apply Z.ltb_ge in H2.
  destruct (minutes >=? 30).
  - exists ((hours + 1) mod 24). split; [| reflexivity].
    pose proof (Z.mod_pos_bound (hours + 1) 24). lia.
  - exists hours. split; [lia | reflexivity].
Qed.

Lemma is_digit_cases c :
  PyStr.is_digit c = true ->
  In c ["0"; "1"; "2"; "3"; "4"; "5"; "6"; "7"; "8"; "9"]%char.
Proof.
  destruct c as [[] [] [] [] [] [] [] []]; intros H; try discriminate H;
    simpl; auto 12.
Qed.

Ltac digit_cases H :=
  apply is_digit_cases in H; simpl in H;
  repeat (destruct H as [<- | H]; [| try contradiction]).

Lemma int_one_digit a :
  PyStr.is_digit a = true ->
  PyStr.int (String a "") = Some (PyStr.digit_value a).
Proof.
  intros Ha. digit_cases Ha; reflexivity.
Qed.

Lemma int_two_digits a b tail :
  PyStr.is_digit a = true -> PyStr.is_digit b = true ->
  at_end_anchor tail = true ->
  PyStr.int (String a (String b tail))
  = Some (10 * PyStr.digit_value a + PyStr.digit_value b).
Proof.
  intros Ha Hb Htail.
  assert (Ht : tail = "" \/ tail = nl).
  { destruct tail as [| c [| ? ?]]; try discriminate; [now left |].
    right. simpl in Htail. apply Ascii.eqb_eq in Htail. now subst. }
  digit_cases Ha; digit_cases Hb; destruct Ht as [-> | ->]; reflexivity.
Qed.

Lemma digit_value_range c :
  PyStr.is_digit c = true -> 0 <= PyStr.digit_value c <= 9.
Proof.
  unfold PyStr.is_digit, PyStr.digit_value. intros H.
  apply andb_prop in H as [H1 H2].
  apply Z.leb_le in H1, H2. lia.
Qed.

Lemma digit_not_colon c :
  PyStr.is_digit c = true -> Ascii.eqb c ":" = false.
Proof.
  intros H. destruct (Ascii.eqb_spec c ":") as [-> |]; [discriminate H | reflexivity].
Qed.

Lemma split_tail tail :
  at_end_anchor tail = true -> PyStr.split ":" tail = [tail].
Proof.
  destruct tail as [| c [| ? ?]]; try discriminate; [reflexivity |].
  simpl. intros H. apply Ascii.eqb_eq in H. subst c. reflexivity.
Qed.

(** The pattern accepts exactly the strings that have the two fields. *)
Lemma re_match_time_fields t :
  re_match_time t = match clock_fields t with Some _ => true | None => false end.
Proof.
  destruct t as [| c1 [| c2 [| c3 [| c4 rest]]]]; simpl.
  - reflexivity.
  - now rewrite andb_false_r.
  - destruct (PyStr.is_digit c1), (PyStr.is_digit c2), (Ascii.eqb c2 ":");
      reflexivity.
  - destruct (PyStr.is_digit c1), (PyStr.is_digit c2), (Ascii.eqb c2 ":"),
      (Ascii.eqb c3 ":"); reflexivity.
  - destruct (PyStr.is_digit c1), (PyStr.is_digit c2), (Ascii.eqb c2 ":"),
      (PyStr.is_digit c3), (Ascii.eqb c3 ":"), (PyStr.is_digit c4),
      (at_end_anchor rest); simpl;
      try reflexivity;
      destruct rest as [| c5 rest']; simpl; try reflexivity;
      destruct (PyStr.is_digit c5), (at_end_anchor rest'); reflexivity.
Qed.

Lemma round_fields_ranges hour minute :
  0 <= hour -> 0 <= minute ->
  (if (hour <? 0) || (hour >? 23) || (minute <? 0) || (minute >? 59)
   then None
   else Some (PyStr.format_02d (if minute >=? 30 then (hour + 1) mod 24 else hour)
              ++ ":00"))
  = round_fields (hour, minute).
Proof.
  intros Hh Hm. unfold round_fields, on_the_hour.
  rewrite !Z.gtb_ltb.
  destruct (Z.ltb_spec hour 0), (Z.ltb_spec 23 hour), (Z.ltb_spec minute 0),
    (Z.ltb_spec 59 minute), (Z.leb_spec hour 23), (Z.leb_spec minute 59);
    simpl; try reflexivity; lia.
Qed.

(** What [round_time_to_nearest_hour] computes: the rounding rule on the
    fields of a time written H:MM or HH:MM, with or without a final line
    feed, and nothing on any other input. *)
Lemma round_time_by_fields t :
  round_time_to_nearest_hour t
  = match clock_fields t with
    | Some fields => round_fields fields
    | None => None
    end.
Proof.
  unfold round_time_to_nearest_hour. rewrite re_match_time_fields.
  destruct (clock_fields t) as [[hour minute] |] eqn:Hfields; [| reflexivity].
  simpl negb. cbv iota.
  destruct t as [| c1 [| c2 [| c3 [| c4 rest]]]]; try discriminate Hfields.
  simpl in Hfields.
  destruct (PyStr.is_digit c1 && Ascii.eqb c2 ":" && PyStr.is_digit c3
            && PyStr.is_digit c4 && at_end_anchor rest) eqn:Hshort.
  - injection Hfields as <- <-.
    apply andb_prop in Hshort as [Hshort Hend].
    apply andb_prop in Hshort as [Hshort Hd4].
    apply andb_prop in Hshort as [Hshort Hd3].
    apply andb_prop in Hshort as [Hd1 Hcolon].
    apply Ascii.eqb_eq in Hcolon. subst c2.
    pose proof (digit_value_range _ Hd1). pose proof (digit_value_range _ Hd3).
    pose proof (digit_value_range _ Hd4).
    simpl PyStr.split.
    rewrite (digit_not_colon c1), (digit_not_colon c3), (digit_not_colon c4)
      by assumption.
    simpl. rewrite split_tail by assumption.
    simpl map. rewrite int_one_digit, int_two_digits by assumption.
    apply round_fields_ranges; lia.
  - destruct rest as [| c5 rest']; [discriminate Hfields |].
    destruct (PyStr.is_digit c1 && PyStr.is_digit c2 && Ascii.eqb c3 ":"
              && PyStr.is_digit c4 && PyStr.is_digit c5 && at_end_anchor rest')
      eqn:Hlong; [| discriminate Hfields].
    injection Hfields as <- <-.
    apply andb_prop in Hlong as [Hlong Hend].
    apply andb_prop in Hlong as [Hlong Hd5].
    apply andb_prop in Hlong as [Hlong Hd4].
    apply andb_prop in Hlong as [Hlong Hcolon].
    apply andb_prop in Hlong as [Hd1 Hd2].
    apply Ascii.eqb_eq in Hcolon. subst c3.
    pose proof (digit_value_range _ Hd1). pose proof (digit_value_range _ Hd2).
    pose proof (digit_value_range _ Hd4). pose proof (digit_value_range _ Hd5).
    simpl PyStr.split.
    rewrite (digit_not_colon c1), (digit_not_colon c2), (digit_not_colon c4),
      (digit_not_colon c5) by assumption.
    simpl. rewrite split_tail by assumption.
    simpl map.
    rewrite (int_two_digits c1 c2 "") by (try assumption; reflexivity).
    rewrite int_two_digits by assumption.
    apply round_fields_ranges; lia.
Qed.

(** The five sample values of the specification. *)
Example round_time_samples :
  round_time_to_nearest_hour "10:15" = Some "10:00"
  /\ round_time_to_nearest_hour "10:30" = Some "11:00"
  /\ round_time_to_nearest_hour "23:45" = Some "00:00"
  /\ round_time_to_nearest_hour "9:5" = None
  /\ round_time_to_nearest_hour "24:00" = None.
Proof. repeat split; reflexivity. Qed.

(** C6. Not every input that is not two numeric fields around a colon is
    rejected: the function computes the rounding rule on the fields of any
    string made of one or two digits, a colon, two digits and, possibly, a
    final line feed.  The five characters of 10:15 followed by a line feed
    give 10:00: the end anchor of the pattern matches before a final line
    feed, and [int] drops the line feed. *)
Theorem round_time_accepts_final_newline :
  (forall t,
      round_time_to_nearest_hour t
      = match clock_fields t with
        | Some fields => round_fields fields
        | None => None
        end)
  /\ clock_fields ("10:15" ++ nl) = Some (10, 15)
  /\ round_time_to_nearest_hour ("10:15" ++ nl) = Some "10:00".
Proof.
  split; [exact round_time_by_fields |].
  split; reflexivity.
Qed.

(** C5. Rounding is idempotent: whenever [round_time_to_nearest_hour]
  returns a value for [t], rounding that value returns it unchanged. *)
Theorem round_time_idempotent (t r : string) :
  round_time_to_nearest_hour t = Some r ->
  round_time_to_nearest_hour r = Some r.
Proof.
  intros H. destruct (round_time_result _ _ H) as (h & Hh & ->).
  now apply on_the_hour_fixed.
Qed.

Lemma round_time_idempotent_witness :
  round_time_to_nearest_hour "23:45" = Some "00:00"
  /\ round_time_to_nearest_hour "00:00" = Some "00:00".
Proof.
  split; [reflexivity |].
  apply (round_time_idempotent "23:45" "00:00"). reflexivity.
Defined.

(** ** find_restaurant *)

Lemma filter_all {A : Type} (f : A -> bool) (l : list A) :
  (forall x, In x l -> f x = true) -> filter f l = l.
Proof.
  induction l as [| x l IH]; intros H; simpl; [reflexivity |].
  rewrite (H x) by now left.
  f_equal. apply IH. intros y Hy. apply H. now right.
Qed.

Lemma filter_none {A : Type} (f : A -> bool) (l : list A) :
  (forall x, In x l -> f x = false) -> filter f l = [].
Proof.
  induction l as [| x l IH]; intros H; simpl; [reflexivity |].
  rewrite (H x) by now left.
  apply IH. intros y Hy. apply H. now right.
Qed.

(** Without any filter every restaurant matches. *)
Lemma find_matches_no_filter catalog :
  find_matches catalog None None None None = catalog.
Proof. apply filter_all. reflexivity. Qed.

(** A negative party size matches nothing, whatever the other filters. *)
Lemma find_matches_negative_party catalog name location tags party_size :
  party_size < 0 ->
  find_matches catalog name location tags (Some party_size) = [].
Proof.
  intros Hneg. apply filter_none. intros r _. unfold is_match. simpl.
  destruct (Z.eqb_spec party_size 0); [lia |].
  destruct (Z.leb_spec party_size 0); [| lia].
  simpl.
  repeat match goal with |- context [if ?b then _ else _] => destruct b end;
    reflexivity.
Qed.

(** A non-empty tags filter that shares no tag with any restaurant matches
    nothing, whatever the name and location filters. *)
Lemma find_matches_foreign_tags catalog name location tag tags party_size :
  (forall r, In r catalog -> any_tag_matches (tag :: tags) (r_tags r) = false) ->
  find_matches catalog name location (Some (tag :: tags)) party_size = [].
Proof.
  intros Hforeign. apply filter_none. intros r Hr. unfold is_match.
  cbn [truthy_list get_list]. rewrite (Hforeign r Hr). simpl.
  repeat match goal with |- context [if ?b then _ else _] => destruct b end;
    reflexivity.
Qed.

(** An empty list of tags is taken for an absent filter. *)
Lemma find_matches_empty_tags catalog name location party_size :
  find_matches catalog name location (Some []) party_size
  = find_matches catalog name location None party_size.
Proof. reflexivity. Qed.

(** C3. A party size of 0 does not give zero matches: the test
    [if party_size and is_match] takes 0 for an absent filter, so the
    branch [party_size <= 0] is never reached with 0 and the search answers
    as it does without the filter; on a one-restaurant catalog it returns
    that restaurant. *)
Theorem find_restaurant_party_size_zero
  (catalog : list restaurant) (name location : option string)
  (tags : option (list string)) :
  find_restaurant catalog name location tags (Some 0)
  = find_restaurant catalog name location tags None
  /\ find_restaurant [bistro] None None None (Some 0) = ResultData [bistro].
Proof.
  split; reflexivity.
Qed.

(** ** The reservations table *)

Lemma total_booked_sum restaurant_id date time rows :
  total_booked restaurant_id date time rows
  = sum_party_size (slot_rows restaurant_id date time rows).
Proof.
  unfold total_booked, sql_sum_party_size.
  destruct (slot_rows restaurant_id date time rows); reflexivity.
Qed.

Lemma sum_party_size_app rows rows' :
  sum_party_size (rows ++ rows')%list = sum_party_size rows + sum_party_size rows'.
Proof.
  induction rows as [| row rows IH]; simpl; [reflexivity |].
  rewrite IH. lia.
Qed.

Lemma slot_rows_app restaurant_id date time rows rows' :
  slot_rows restaurant_id date time (rows ++ rows')%list
  = (slot_rows restaurant_id date time rows
     ++ slot_rows restaurant_id date time rows')%list.
Proof. apply filter_app. Qed.

(** ** check_availability *)

(** What [check_availability] returns, branch by branch, on a table that
    it hands back as it received it. *)
Lemma check_availability_run catalog restaurant_id date time party_size db :
  check_availability catalog restaurant_id date time party_size db
  = (fst (check_availability catalog restaurant_id date time party_size db), db).
Proof.
  unfold check_availability.
  destruct (party_size <=? 0); [reflexivity |].
  destruct (lookup_restaurant catalog restaurant_id) as [r |]; [| reflexivity].
  destruct (party_size >? r_capacity r); [reflexivity |].
  destruct (round_time_to_nearest_hour time) as [rounded |]; reflexivity.
Qed.

(** C10. [check_availability] never modifies the reservation ledger: for
    every input, valid or not, the committed reservations after the call
    are those before the call. *)
Theorem check_availability_frame
  (catalog : list restaurant) (restaurant_id date time : string) (party_size : Z)
  (db : ledger) :
  snd (check_availability catalog restaurant_id date time party_size db) = db.
Proof.
  rewrite check_availability_run. reflexivity.
Qed.

(** The answer on a request that passes the four checks. *)
Lemma check_availability_accepted
  catalog restaurant_id date time party_size db restaurant rounded_time :
  0 < party_size ->
  lookup_restaurant catalog restaurant_id = Some restaurant ->
  party_size <= r_capacity restaurant ->
  round_time_to_nearest_hour time = Some rounded_time ->
  fst (check_availability catalog restaurant_id date time party_size db)
  = let booked := total_booked restaurant_id date rounded_time db in
    let remaining := r_capacity restaurant - booked in
    {| available := remaining >=? party_size;
       av_restaurant_id := restaurant_id;
       av_date := date;
       av_time := rounded_time;
       av_party_size := party_size;
       restaurant_capacity := Some (r_capacity restaurant);
       available_capacity := Some remaining;
       av_message :=
         availability_message (remaining >=? party_size) booked
           (r_capacity restaurant) remaining party_size rounded_time |}.
Proof.
  intros Hp Hr Hc Ht. unfold check_availability.
  destruct (Z.leb_spec party_size 0); [lia |].
  rewrite Hr, Z.gtb_ltb.
  destruct (Z.ltb_spec (r_capacity restaurant) party_size); [lia |].
  rewrite Ht. reflexivity.
Qed.

Lemma split_last_app init c : split_last (init ++ String c "") = Some (init, c).
Proof.
  induction init as [| a init IH]; simpl; [reflexivity | now rewrite IH].
Qed.

Lemma at_end_anchor_cases rest :
  at_end_anchor rest = true -> rest = "" \/ rest = nl.
Proof.
  destruct rest as [| c [| ? ?]]; try discriminate; [now left |].
  right. simpl in H. apply Ascii.eqb_eq in H. now subst.
Qed.

(** A time written HH:MM has the fields the pattern of
    [round_time_to_nearest_hour] finds. *)
Lemma hh_mm_fields_clock t fields :
  hh_mm_fields t = Some fields -> clock_fields t = Some fields.
Proof.
  destruct t as [| c1 [| c2 [| c3 [| c4 [| c5 [| c6 rest]]]]]];
    try discriminate.
  - cbn [clock_fields hh_mm_fields at_end_anchor]. rewrite andb_true_r.
    destruct (PyStr.is_digit c1 && Ascii.eqb c2 ":" && PyStr.is_digit c3
              && PyStr.is_digit c4); [auto | discriminate].
  - cbn [clock_fields hh_mm_fields at_end_anchor]. rewrite andb_true_r.
    destruct (PyStr.is_digit c1 && PyStr.is_digit c2 && Ascii.eqb c3 ":"
              && PyStr.is_digit c4 && PyStr.is_digit c5) eqn:Hlong;
      [| discriminate].
    intros Hfields.
    apply andb_prop in Hlong as [Hlong Hd5].
    apply andb_prop in Hlong as [Hlong Hd4].
    apply andb_prop in Hlong as [Hlong Hcolon].
    apply andb_prop in Hlong as [Hd1 Hd2].
    rewrite (digit_not_colon c2 Hd2), andb_false_r. exact Hfields.
Qed.

(** The pattern finds fields in a time written HH:MM and in such a time
    followed by one line feed, and nowhere else. *)
Lemma clock_fields_cases t fields :
  clock_fields t = Some fields ->
  hh_mm_fields t = Some fields
  \/ exists init, t = init ++ nl /\ hh_mm_fields init = Some fields.
Proof.
  destruct t as [| c1 [| c2 [| c3 [| c4 rest]]]]; try discriminate.
  cbn [clock_fields].
  destruct (PyStr.is_digit c1 && Ascii.eqb c2 ":" && PyStr.is_digit c3
            && PyStr.is_digit c4 && at_end_anchor rest) eqn:Hshort.
  - intros Hfields.
    apply andb_prop in Hshort as [Hshort Hend].
    destruct (at_end_anchor_cases rest Hend) as [-> | ->].
    + left. cbn [hh_mm_fields]. rewrite Hshort. exact Hfields.
    + right. exists (String c1 (String c2 (String c3 (String c4 "")))).
      split; [reflexivity |]. cbn [hh_mm_fields]. rewrite Hshort. exact Hfields.
  - destruct rest as [| c5 rest']; [discriminate |].
    destruct (PyStr.is_digit c1 && PyStr.is_digit c2 && Ascii.eqb c3 ":"
              && PyStr.is_digit c4 && PyStr.is_digit c5 && at_end_anchor rest')
      eqn:Hlong; [| discriminate].
    intros Hfields.
    apply andb_prop in Hlong as [Hlong Hend].
    destruct (at_end_anchor_cases rest' Hend) as [-> | ->].
    + left. cbn [hh_mm_fields]. rewrite Hlong. exact Hfields.
    + right. exists (String c1 (String c2 (String c3 (String c4 (String c5 ""))))).
      split; [reflexivity |]. cbn [hh_mm_fields]. rewrite Hlong. exact Hfields.
Qed.

(** Apart from a valid HH:MM followed by a line feed, the function rejects
    exactly the times that are not valid HH:MM. *)
Lemma round_time_rejects_invalid t :
  valid_hh_mm_then_line_feed t = false ->
  round_time_to_nearest_hour t = None <-> valid_hh_mm t = false.
Proof.
  intros Hslip. rewrite round_time_by_fields. split.
  - intros Hnone. destruct (valid_hh_mm t) eqn:Hvalid; [| reflexivity].
    unfold valid_hh_mm in Hvalid.
    destruct (hh_mm_fields t) as [[hour minute] |] eqn:Hfields; [| discriminate].
    rewrite (hh_mm_fields_clock _ _ Hfields) in Hnone.
    unfold round_fields in Hnone. rewrite Hvalid in Hnone. discriminate.
  - intros Hvalid.
    destruct (clock_fields t) as [[hour minute] |] eqn:Hclock; [| reflexivity].
    destruct (clock_fields_cases _ _ Hclock) as [Hfields | (init & -> & Hfields)].
    + unfold valid_hh_mm in Hvalid. rewrite Hfields in Hvalid.
      unfold round_fields. rewrite Hvalid. reflexivity.
    + unfold valid_hh_mm_then_line_feed, nl in Hslip.
      rewrite split_last_app, Ascii.eqb_refl in Hslip. cbn [andb] in Hslip.
      unfold valid_hh_mm in Hslip. rewrite Hfields in Hslip.
      unfold round_fields. rewrite Hslip. reflexivity.
Qed.

Lemma check_availability_refused_iff catalog restaurant_id date time party_size db :
  valid_hh_mm_then_line_feed time = false ->
  is_refusal (fst (check_availability catalog restaurant_id date time party_size db))
  <-> refused_request catalog restaurant_id time party_size.
Proof.
  intros Hend. pose proof (round_time_rejects_invalid time Hend) as Hvalid.
  unfold check_availability, refused_request, is_refusal.
  destruct (Z.leb_spec party_size 0) as [Hp | Hp].
  { simpl. intuition. }
  destruct (lookup_restaurant catalog restaurant_id) as [r |] eqn:Hr.
  2: { simpl. intuition. }
  rewrite Z.gtb_ltb.
  destruct (Z.ltb_spec (r_capacity r) party_size) as [Hc | Hc].
  { simpl. split; [| intuition].
    intros _. right. right. left. exists r. split; [reflexivity | lia]. }
  destruct (round_time_to_nearest_hour time) as [rounded |] eqn:Ht.
  2: { simpl. split; [| intuition].
       intros _. right. right. right. now apply Hvalid. }
  simpl. split.
  - intros (_ & _ & Hcap). discriminate.
  - intros [H | [H | [(r' & [= <-] & H) | H]]]; try discriminate; try lia.
    apply Hvalid in H. discriminate H.
Qed.

Lemma check_availability_report catalog restaurant_id date time party_size db :
  valid_hh_mm_then_line_feed time = false ->
  ~ refused_request catalog restaurant_id time party_size ->
  is_report catalog restaurant_id date time party_size db
    (fst (check_availability catalog restaurant_id date time party_size db)).
Proof.
  intros Hend. pose proof (round_time_rejects_invalid time Hend) as Hvalid.
  unfold check_availability, refused_request, is_report.
  intros Hok.
  destruct (Z.leb_spec party_size 0) as [Hp | Hp]; [tauto |].
  destruct (lookup_restaurant catalog restaurant_id) as [r |] eqn:Hr; [| tauto].
  rewrite Z.gtb_ltb.
  destruct (Z.ltb_spec (r_capacity r) party_size) as [Hc | Hc].
  { exfalso. apply Hok. right. right. left. exists r. split; [reflexivity | lia]. }
  destruct (round_time_to_nearest_hour time) as [rounded |] eqn:Ht.
  2: { exfalso. apply Hok. right. right. right. now apply Hvalid. }
  exists r, rounded. simpl. repeat split; reflexivity.
Qed.

(** C4, as the specification states it, fails: a party of five at an empty
    four-seat restaurant, at 19:00, is a valid request (a positive party
    size, a known restaurant, a time that is valid HH:MM), yet the answer
    carries no [available_capacity]. *)
Lemma availability_rule_as_specified_fails :
  ~ availability_rule_as_specified [bistro] "r1" "2025-06-01" "19:00" 5 [].
Proof.
  intros [_ Hreport].
  destruct Hreport as (r & rounded & _ & _ & _ & Hcap).
  - intros [H | [H | H]]; [lia | discriminate H | vm_compute in H; discriminate H].
  - vm_compute in Hcap. discriminate Hcap.
Qed.

(** C4, amended by the fourth ground only.  [check_availability] answers
    with a refusal (a negative result without capacity figures, never an
    exception) exactly when [party_size <= 0], the restaurant is unknown,
    the party is larger than the restaurant's whole capacity, or the time
    fails to parse as valid HH:MM; otherwise it reports
    [available = (capacity - booked >= party_size)] for the rounded slot,
    with that difference as [available_capacity].  At a four-seat
    restaurant with an unbooked slot a party of four is available with
    [available_capacity = 4]; a party of five is refused with the message
    that the restaurant takes up to 4 people, and no [available_capacity].
    The statement leaves out a valid HH:MM followed by a line feed (what
    the function does with it is C6, and is neither promised nor denied
    here) and is about a table whose party sizes SQLite can add up. *)
Theorem check_availability_spec
  (catalog : list restaurant) (restaurant_id date time : string) (party_size : Z)
  (db : ledger) :
  valid_hh_mm_then_line_feed time = false ->
  summable db ->
  let res := fst (check_availability catalog restaurant_id date time party_size db) in
  (is_refusal res <-> refused_request catalog restaurant_id time party_size)
  /\ (~ refused_request catalog restaurant_id time party_size ->
      is_report catalog restaurant_id date time party_size db res)
  /\ (forall restaurant rounded_time,
        lookup_restaurant catalog restaurant_id = Some restaurant ->
        r_capacity restaurant = 4 ->
        round_time_to_nearest_hour time = Some rounded_time ->
        slot_rows restaurant_id date rounded_time db = [] ->
        let four := fst (check_availability catalog restaurant_id date time 4 db) in
        let five := fst (check_availability catalog restaurant_id date time 5 db) in
        available four = true
        /\ available_capacity four = Some 4
        /\ available five = false
        /\ available_capacity five = None
        /\ av_message five
           = "Sorry, this restaurant can only accommodate up to 4 people in total.").
Proof.
  intros Hend _. cbv zeta.
  split; [now apply check_availability_refused_iff |].
  split; [now apply check_availability_report |].
  intros r rounded Hr Hcap Ht Hrows.
  assert (Hfree : total_booked restaurant_id date rounded db = 0).
  { rewrite total_booked_sum, Hrows. reflexivity. }
  rewrite (check_availability_accepted catalog restaurant_id date time 4 db r rounded)
    by (try assumption; lia).
  rewrite Hfree, Hcap.
  unfold check_availability. rewrite Hr, Hcap. simpl.
  repeat split; reflexivity.
Qed.

Lemma check_availability_spec_witness :
  (valid_hh_mm_then_line_feed "19:20" = false /\ summable [])
  /\ let four := fst (check_availability [bistro] "r1" "2025-06-01" "19:20" 4 []) in
     let five := fst (check_availability [bistro] "r1" "2025-06-01" "19:20" 5 []) in
     available four = true
     /\ available_capacity four = Some 4
     /\ available five = false
     /\ available_capacity five = None
     /\ av_message five
        = "Sorry, this restaurant can only accommodate up to 4 people in total.".
Proof.
  assert (Hsum : summable []).
  { split; [constructor | unfold max_int64; simpl; lia]. }
  split; [split; [reflexivity | exact Hsum] |].
  apply (proj2 (proj2 (check_availability_spec [bistro] "r1" "2025-06-01" "19:20" 4 []
                         eq_refl Hsum))
           bistro "19:00"); reflexivity.
Defined.

(** ** make_reservation *)

Lemma available_inv catalog restaurant_id date time party_size db :
  available (fst (check_availability catalog restaurant_id date time party_size db)) = true ->
  exists restaurant rounded_time,
    lookup_restaurant catalog restaurant_id = Some restaurant
    /\ round_time_to_nearest_hour time = Some rounded_time
    /\ 0 < party_size
    /\ total_booked restaurant_id date rounded_time db + party_size
       <= r_capacity restaurant
    /\ av_time (fst (check_availability catalog restaurant_id date time party_size db))
       = rounded_time.
Proof.
  unfold check_availability.
  destruct (Z.leb_spec party_size 0) as [Hp | Hp]; [discriminate |].
  destruct (lookup_restaurant catalog restaurant_id) as [r |] eqn:Hr; [| discriminate].
  rewrite Z.gtb_ltb.
  destruct (Z.ltb_spec (r_capacity r) party_size) as [Hc | Hc]; [discriminate |].
  destruct (round_time_to_nearest_hour time) as [rounded |] eqn:Ht; [| discriminate].
  simpl. intros Hav. exists r, rounded.
  repeat split; try assumption.
  rewrite Z.geb_leb in Hav. apply Z.leb_le in Hav.
  unfold total_booked. unfold visible_rows in Hav. simpl in Hav. lia.
Qed.

(** A refused booking: the answer is negative and the table is untouched. *)
Lemma make_reservation_refused
  catalog restaurant_id date time party_size user_name user_phone db :
  user_name = "" \/ user_phone = ""
  \/ available (fst (check_availability catalog restaurant_id date time party_size db))
     = false ->
  exists message,
    make_reservation catalog restaurant_id date time party_size user_name user_phone db
    = (booking_failure restaurant_id date time party_size user_name user_phone message,
       db).
Proof.
  intros H. unfold make_reservation.
  destruct (String.eqb_spec user_name "") as [Hn | Hn]; simpl.
  { eexists. reflexivity. }
  destruct (String.eqb_spec user_phone "") as [Hph | Hph]; simpl.
  { eexists. reflexivity. }
  destruct H as [H | [H | H]]; [contradiction | contradiction |].
  unfold bind. rewrite check_availability_run, H. simpl.
  eexists. reflexivity.
Qed.

Lemma insertable_cases db party_size :
  insertable db party_size \/ ~ insertable db party_size.
Proof. unfold insertable. lia. Qed.

(** The [INSERT], where it goes through and where it raises. *)
Lemma insert_reservation_run restaurant_id date time party_size user_name user_phone c :
  insert_reservation restaurant_id date time party_size user_name user_phone c
  = if (party_size <? - max_int64 - 1) || (party_size >? max_int64) then
      (Raised "Python int too large to convert to SQLite INTEGER", c)
    else if next_rowid (visible_rows c) >? max_int64 then
      (Raised "database or disk is full", c)
    else
      (Returned (next_rowid (visible_rows c)),
       {| committed := committed c;
          transaction :=
            Some (visible_rows c
                  ++ [booked_row (visible_rows c) restaurant_id date time party_size
                        user_name user_phone])%list |}).
Proof. reflexivity. Qed.

Lemma insertable_passes db party_size :
  insertable db party_size ->
  (party_size <? - max_int64 - 1) || (party_size >? max_int64) = false
  /\ (next_rowid db >? max_int64) = false.
Proof.
  unfold insertable. intros [[Hlow Hhigh] Hid].
  rewrite !Z.gtb_ltb.
  destruct (Z.ltb_spec party_size (- max_int64 - 1)); [lia |].
  destruct (Z.ltb_spec max_int64 party_size); [lia |].
  destruct (Z.ltb_spec max_int64 (next_rowid db)); [lia |].
  split; reflexivity.
Qed.

(** The [try] block on a request that fits the slot: the row is committed,
    or the [INSERT] raises and the transaction is rolled back. *)
Lemma reserve_in_transaction_run
  catalog restaurant_id date rounded_time party_size user_name user_phone db restaurant :
  lookup_restaurant catalog restaurant_id = Some restaurant ->
  total_booked restaurant_id date rounded_time db + party_size <= r_capacity restaurant ->
  with_connection
    (reserve_in_transaction catalog restaurant_id date rounded_time party_size
       user_name user_phone) db
  = if (party_size <? - max_int64 - 1) || (party_size >? max_int64) then
      (booking_failure restaurant_id date rounded_time party_size user_name user_phone
         ("Failed to make reservation: "
          ++ "Python int too large to convert to SQLite INTEGER"), db)
    else if next_rowid db >? max_int64 then
      (booking_failure restaurant_id date rounded_time party_size user_name user_phone
         ("Failed to make reservation: " ++ "database or disk is full"), db)
    else
      (booking_confirmation restaurant restaurant_id date rounded_time party_size
         user_name user_phone (next_rowid db),
       (db ++ [booked_row db restaurant_id date rounded_time party_size
                 user_name user_phone])%list).
Proof.
  intros Hr Hfit.
  unfold with_connection, reserve_in_transaction, bind, begin_exclusive,
    select_sum_party_size.
  cbn [visible_rows transaction committed].
  fold (total_booked restaurant_id date rounded_time db).
  rewrite Hr.
  destruct (Z.ltb_spec (r_capacity restaurant
                        - total_booked restaurant_id date rounded_time db)
              party_size) as [Hlt | Hge]; [lia |].
  rewrite insert_reservation_run.
  cbn [visible_rows transaction committed].
  destruct ((party_size <? - max_int64 - 1) || (party_size >? max_int64));
    [reflexivity |].
  destruct (next_rowid db >? max_int64); reflexivity.
Qed.

(** A booking that the availability check lets through goes on to the
    [try] block, with the rounded time of the check. *)
Lemma make_reservation_available
  catalog restaurant_id date time party_size user_name user_phone db :
  user_name <> "" -> user_phone <> "" ->
  available (fst (check_availability catalog restaurant_id date time party_size db))
  = true ->
  exists restaurant rounded_time,
    lookup_restaurant catalog restaurant_id = Some restaurant
    /\ round_time_to_nearest_hour time = Some rounded_time
    /\ 0 < party_size
    /\ total_booked restaurant_id date rounded_time db + party_size
       <= r_capacity restaurant
    /\ make_reservation catalog restaurant_id date time party_size user_name user_phone db
       = with_connection
           (reserve_in_transaction catalog restaurant_id date rounded_time party_size
              user_name user_phone) db.
Proof.
  intros Hn Hph Hav.
  destruct (available_inv _ _ _ _ _ _ Hav) as (r & rounded & Hr & Ht & Hp & Hfit & Htime).
  exists r, rounded. repeat split; try assumption.
  unfold make_reservation.
  destruct (String.eqb_spec user_name ""); [contradiction |].
  destruct (String.eqb_spec user_phone ""); [contradiction |].
  simpl. unfold bind at 1. rewrite check_availability_run, Hav, Htime. reflexivity.
Qed.

(** An accepted booking: one row is appended, for the rounded slot, and
    the slot stays within the capacity. *)
Lemma make_reservation_booked
  catalog restaurant_id date time party_size user_name user_phone db :
  user_name <> "" -> user_phone <> "" ->
  available (fst (check_availability catalog restaurant_id date time party_size db))
  = true ->
  insertable db party_size ->
  exists restaurant rounded_time result,
    lookup_restaurant catalog restaurant_id = Some restaurant
    /\ round_time_to_nearest_hour time = Some rounded_time
    /\ total_booked restaurant_id date rounded_time db + party_size
       <= r_capacity restaurant
    /\ success result = true
    /\ bk_time result = rounded_time
    /\ make_reservation catalog restaurant_id date time party_size user_name user_phone db
       = (result,
          (db ++ [booked_row db restaurant_id date rounded_time party_size
                    user_name user_phone])%list).
Proof.
  intros Hn Hph Hav Hins.
  destruct (make_reservation_available _ _ _ _ _ _ _ _ Hn Hph Hav)
    as (r & rounded & Hr & Ht & Hp & Hfit & ->).
  rewrite (reserve_in_transaction_run _ _ _ _ _ _ _ _ r Hr Hfit).
  destruct (insertable_passes _ _ Hins) as [-> ->].
  exists r, rounded. eexists. repeat split; try eassumption; reflexivity.
Qed.

(** A booking whose [INSERT] raises: the answer is negative, with the text
    of the exception, and the table is untouched. *)
Lemma make_reservation_insert_raises
  catalog restaurant_id date time party_size user_name user_phone db :
  user_name <> "" -> user_phone <> "" ->
  available (fst (check_availability catalog restaurant_id date time party_size db))
  = true ->
  ~ insertable db party_size ->
  exists rounded_time e,
    round_time_to_nearest_hour time = Some rounded_time
    /\ ((max_int64 < party_size
         /\ e = "Python int too large to convert to SQLite INTEGER")
        \/ (party_size <= max_int64 /\ max_int64 < next_rowid db
            /\ e = "database or disk is full"))
    /\ make_reservation catalog restaurant_id date time party_size user_name user_phone db
       = (booking_failure restaurant_id date rounded_time party_size user_name user_phone
            ("Failed to make reservation: " ++ e), db).
Proof.
  intros Hn Hph Hav Hins.
  destruct (make_reservation_available _ _ _ _ _ _ _ _ Hn Hph Hav)
    as (r & rounded & Hr & Ht & Hp & Hfit & ->).
  rewrite (reserve_in_transaction_run _ _ _ _ _ _ _ _ r Hr Hfit).
  exists rounded.
  assert (Hlow : (party_size <? - max_int64 - 1) = false).
  { apply Z.ltb_ge. unfold max_int64. lia. }
  rewrite Hlow, !Z.gtb_ltb. cbn [orb].
  destruct (Z.ltb_spec max_int64 party_size) as [Hsize | Hsize].
  { eexists. split; [assumption |]. split; [left; split; [assumption | reflexivity] |].
    reflexivity. }
  destruct (Z.ltb_spec max_int64 (next_rowid db)) as [Hid | Hid].
  { eexists. split; [assumption |].
    split; [right; split; [assumption | split; [assumption | reflexivity]] |].
    reflexivity. }
  exfalso. apply Hins. unfold insertable. unfold max_int64 in *. lia.
Qed.

(** A booking turned down by the availability check repeats its message. *)
Lemma make_reservation_unavailable
  catalog restaurant_id date time party_size user_name user_phone db :
  user_name <> "" -> user_phone <> "" ->
  available (fst (check_availability catalog restaurant_id date time party_size db))
  = false ->
  make_reservation catalog restaurant_id date time party_size user_name user_phone db
  = (booking_failure restaurant_id date time party_size user_name user_phone
       (av_message
          (fst (check_availability catalog restaurant_id date time party_size db))),
     db).
Proof.
  intros Hn Hph Hav. unfold make_reservation.
  destruct (String.eqb_spec user_name ""); [contradiction |].
  destruct (String.eqb_spec user_phone ""); [contradiction |].
  simpl. unfold bind. rewrite check_availability_run, Hav. reflexivity.
Qed.

Lemma in_slot_booked_row db restaurant_id date time party_size user_name user_phone :
  in_slot restaurant_id date time
    (booked_row db restaurant_id date time party_size user_name user_phone) = true.
Proof.
  unfold in_slot, booked_row. simpl. now rewrite !String.eqb_refl.
Qed.


(** Appending a row adds its party to its own slot and to no other. *)
Lemma total_booked_snoc restaurant_id date time db row :
  total_booked restaurant_id date time (db ++ [row])%list
  = total_booked restaurant_id date time db
    + (if in_slot restaurant_id date time row then res_party_size row else 0).
Proof.
  rewrite !total_booked_sum, slot_rows_app, sum_party_size_app.
  unfold slot_rows at 2. simpl.
  destruct (in_slot restaurant_id date time row); simpl; lia.
Qed.

Lemma refused_result
  catalog restaurant_id date time party_size user_name user_phone db :
  user_name = "" \/ user_phone = ""
  \/ available (fst (check_availability catalog restaurant_id date time party_size db))
     = false ->
  success (fst (make_reservation catalog restaurant_id date time party_size
                  user_name user_phone db)) = false
  /\ snd (make_reservation catalog restaurant_id date time party_size
            user_name user_phone db) = db.
Proof.
  intros H.
  destruct (make_reservation_refused catalog restaurant_id date time party_size
              user_name user_phone db H) as [message ->].
  split; reflexivity.
Qed.

(** C8. For every input where [user_name] or [user_phone] is empty, or
    where the availability check against the current table is negative,
    [make_reservation] returns a negative result and leaves the ledger as
    it was: no reservation is inserted. *)
Theorem make_reservation_failure_frame
  (catalog : list restaurant) (restaurant_id date time : string) (party_size : Z)
  (user_name user_phone : string) (db : ledger) :
  user_name = "" \/ user_phone = ""
  \/ available (fst (check_availability catalog restaurant_id date time party_size db))
     = false ->
  success (fst (make_reservation catalog restaurant_id date time party_size
                  user_name user_phone db)) = false
  /\ snd (make_reservation catalog restaurant_id date time party_size
            user_name user_phone db) = db.
Proof.
  exact (refused_result catalog restaurant_id date time party_size user_name
           user_phone db).
Qed.

Lemma make_reservation_failure_frame_witness :
  success (fst (make_reservation [bistro] "r1" "2025-06-01" "19:00" 9 "Ann" "555" []))
  = false
  /\ snd (make_reservation [bistro] "r1" "2025-06-01" "19:00" 9 "Ann" "555" []) = [].
Proof.
  apply (make_reservation_failure_frame [bistro] "r1" "2025-06-01" "19:00" 9 "Ann" "555" []).
  right. right. reflexivity.
Defined.

(** ** The capacity invariant *)








(** ** Three bookings at a four-seat restaurant *)

Lemma largest_id_from a rows :
  0 <= a ->
  fold_right (fun row acc => Z.max (res_id row) acc) a rows
  = Z.max (fold_right (fun row acc => Z.max (res_id row) acc) 0 rows) a.
Proof.
  intros Ha. induction rows as [| row rows IH]; cbn [fold_right]; [lia |].
  rewrite IH. lia.
Qed.

Lemma next_rowid_positive db : 1 <= next_rowid db.
Proof.
  unfold next_rowid. induction db as [| row db IH]; cbn [fold_right]; lia.
Qed.

(** The row id after a booking is the next one. *)
Lemma next_rowid_snoc db restaurant_id date time party_size user_name user_phone :
  next_rowid (db ++ [booked_row db restaurant_id date time party_size
                       user_name user_phone])%list
  = next_rowid db + 1.
Proof.
  unfold next_rowid at 1. rewrite fold_right_app.
  cbn [fold_right booked_row res_id].
  rewrite largest_id_from by lia.
  pose proof (next_rowid_positive db) as Hpos.
  unfold next_rowid in *. lia.
Qed.

(** C7. At a restaurant of capacity 4, from a slot without bookings, in a
    table with row ids left for two more rows: a reservation for 3
    succeeds; a following reservation for 2 in the same slot fails, its
    message saying that there is space for 1 more only, and inserts
    nothing; a following reservation for 1 in the same slot succeeds and
    brings the slot's booked total to the capacity, 4. *)
Theorem three_bookings_fill_the_slot
  (catalog : list restaurant) (restaurant : restaurant)
  (restaurant_id date rounded_time : string)
  (time1 time2 time3 name1 phone1 name2 phone2 name3 phone3 : string)
  (db : ledger) :
  lookup_restaurant catalog restaurant_id = Some restaurant ->
  r_capacity restaurant = 4 ->
  round_time_to_nearest_hour time1 = Some rounded_time ->
  round_time_to_nearest_hour time2 = Some rounded_time ->
  round_time_to_nearest_hour time3 = Some rounded_time ->
  slot_rows restaurant_id date rounded_time db = [] ->
  next_rowid db < max_int64 ->
  name1 <> "" -> phone1 <> "" ->
  name2 <> "" -> phone2 <> "" ->
  name3 <> "" -> phone3 <> "" ->
  let first := make_reservation catalog restaurant_id date time1 3 name1 phone1 db in
  let second :=
    make_reservation catalog restaurant_id date time2 2 name2 phone2 (snd first) in
  let third :=
    make_reservation catalog restaurant_id date time3 1 name3 phone3 (snd second) in
  success (fst first) = true
  /\ total_booked restaurant_id date rounded_time (snd first) = 3
  /\ success (fst second) = false
  /\ bk_message (fst second)
     = "Sorry, we only have space for 1 more people at " ++ rounded_time ++ ", not 2."
  /\ snd second = snd first
  /\ success (fst third) = true
  /\ total_booked restaurant_id date rounded_time (snd third) = r_capacity restaurant.
Proof.
  intros Hr Hcap Ht1 Ht2 Ht3 Hrows Hids Hn1 Hp1 Hn2 Hp2 Hn3 Hp3.
  assert (Hfree : total_booked restaurant_id date rounded_time db = 0).
  { rewrite total_booked_sum, Hrows. reflexivity. }
  assert (Hins1 : insertable db 3).
  { unfold insertable, max_int64 in *. lia. }
  (* the first booking *)
  assert (Hav1 : available (fst (check_availability catalog restaurant_id date time1 3 db))
                 = true).
  { rewrite (check_availability_accepted _ _ _ _ _ _ restaurant rounded_time)
      by (try assumption; lia).
    simpl. rewrite Hfree, Hcap. reflexivity. }
  destruct (make_reservation_booked catalog restaurant_id date time1 3 name1 phone1 db
              Hn1 Hp1 Hav1 Hins1)
    as (r1 & rt1 & result1 & _ & Hrt1 & _ & Hok1 & _ & E1).
  assert (rt1 = rounded_time) as -> by congruence.
  cbv zeta. rewrite E1. simpl.
  set (db1 := (db ++ [booked_row db restaurant_id date rounded_time 3 name1 phone1])%list).
  assert (Hb1 : total_booked restaurant_id date rounded_time db1 = 3).
  { unfold db1. rewrite total_booked_snoc, in_slot_booked_row, Hfree. reflexivity. }
  (* the second booking *)
  assert (Hcheck2 :
            fst (check_availability catalog restaurant_id date time2 2 db1)
            = {| available := false;
                 av_restaurant_id := restaurant_id;
                 av_date := date;
                 av_time := rounded_time;
                 av_party_size := 2;
                 restaurant_capacity := Some 4;
                 available_capacity := Some 1;
                 av_message :=
                   "Sorry, we only have space for 1 more people at "
                   ++ rounded_time ++ ", not 2." |}).
  { rewrite (check_availability_accepted _ _ _ _ _ _ restaurant rounded_time)
      by (try assumption; lia).
    cbv zeta. rewrite Hb1, Hcap. reflexivity. }
  rewrite (make_reservation_unavailable catalog restaurant_id date time2 2 name2 phone2
             db1 Hn2 Hp2)
    by (rewrite Hcheck2; reflexivity).
  rewrite Hcheck2. simpl.
  (* the third booking *)
  assert (Hav3 : available (fst (check_availability catalog restaurant_id date time3 1 db1))
                 = true).
  { rewrite (check_availability_accepted _ _ _ _ _ _ restaurant rounded_time)
      by (try assumption; lia).
    simpl. rewrite Hb1, Hcap. reflexivity. }
  assert (Hins3 : insertable db1 1).
  { unfold insertable, db1. rewrite next_rowid_snoc. unfold max_int64 in *. lia. }
  destruct (make_reservation_booked catalog restaurant_id date time3 1 name3 phone3 db1
              Hn3 Hp3 Hav3 Hins3)
    as (r3 & rt3 & result3 & _ & Hrt3 & _ & Hok3 & _ & E3).
  assert (rt3 = rounded_time) as -> by congruence.
  rewrite E3. simpl.
  rewrite total_booked_snoc, in_slot_booked_row, Hb1, Hcap. simpl.
  repeat split; try assumption; reflexivity.
Qed.

Lemma three_bookings_fill_the_slot_witness :
  let first := make_reservation [bistro] "r1" "2025-06-01" "19:10" 3 "Ann" "555" [] in
  let second :=
    make_reservation [bistro] "r1" "2025-06-01" "18:45" 2 "Bob" "556" (snd first) in
  let third :=
    make_reservation [bistro] "r1" "2025-06-01" "19:00" 1 "Cyd" "557" (snd second) in
  success (fst first) = true
  /\ total_booked "r1" "2025-06-01" "19:00" (snd first) = 3
  /\ success (fst second) = false
  /\ bk_message (fst second)
     = "Sorry, we only have space for 1 more people at " ++ "19:00" ++ ", not 2."
  /\ snd second = snd first
  /\ success (fst third) = true
  /\ total_booked "r1" "2025-06-01" "19:00" (snd third) = r_capacity bistro.
Proof.
  apply (three_bookings_fill_the_slot [bistro] bistro "r1" "2025-06-01" "19:00"
           "19:10" "18:45" "19:00" "Ann" "555" "Bob" "556" "Cyd" "557" []);
    try reflexivity; discriminate.
Defined.

(** ** The sequential tool-calling loop *)

Section Loop.

Variable AGENT_INITIAL_INSTRUCTIONS : string.
Variable generate_content : string -> outcome string.
Variable clean_response_text : string -> string.
Variable extract_function_call : string -> json.
Variable error_text : runtime_error -> string.
Variable tool_map : list (string * tool).

Let step :=
  iteration AGENT_INITIAL_INSTRUCTIONS generate_content clean_response_text
    extract_function_call error_text tool_map.
Let loop :=
  sequential_loop AGENT_INITIAL_INSTRUCTIONS generate_content clean_response_text
    extract_function_call error_text tool_map.



(** More fuel than needed changes nothing. *)
Lemma sequential_loop_fuel fuel fuel' limit s s' :
  loop fuel limit s = Some s' -> (fuel <= fuel')%nat ->
  loop fuel' limit s = Some s'.
Proof.
  revert fuel' s. induction fuel as [| fuel IH]; intros fuel' s Hrun Hle; simpl in Hrun.
  - destruct fuel'; simpl; destruct (tool_call_count s <? limit);
      try discriminate; assumption.
  - destruct fuel' as [| fuel']; [lia |]. simpl.
    destruct (tool_call_count s <? limit); [| assumption].
    fold step in Hrun |- *.
    destruct (step s) as [[|] s1]; [| assumption].
    apply IH; [assumption | lia].
Qed.

(** A name of the registry has an entry. *)
Lemma lookup_tool_in entries n :
  In n (map fst entries) -> exists f, lookup_tool entries n = Some f.
Proof.
  induction entries as [| [k f] entries IH]; simpl; [contradiction |].
  intros [-> | Hin].
  - rewrite String.eqb_refl. eauto.
  - destruct (String.eqb k n); eauto.
Qed.

(** A pass on a well-formed directive for a registered operation: the
    operation is called once, on the bookings as they stand; the model's
    text and the outcome of the call are appended, the call is counted, no
    answer is set, and the loop goes round again. *)
Lemma iteration_dispatch s text :
  generate_content (format_history_for_gemma (llm_messages s) AGENT_INITIAL_INSTRUCTIONS)
  = Returned text ->
  well_formed_directive tool_map (extract_function_call (clean_response_text text)) ->
  exists n tool_function parameters,
    lookup_tool tool_map n = Some tool_function
    /\ step s
       = (Continue,
          {| llm_messages :=
               (llm_messages s
                ++ [assistant (clean_response_text text);
                    user (match fst (tool_function parameters (bookings s)) with
                          | Returned tool_result => "Function result: " ++ tool_result
                          | Raised e => "Error calling function: " ++ e
                          end)])%list;
             tool_call_count := tool_call_count s + 1;
             final_assistant_response := final_assistant_response s;
             bookings := snd (tool_function parameters (bookings s)) |}).
Proof.
  intros Hgen (entries & n & parameters & Hfc & Hname & Hin & Hparams & Htime).
  unfold step, iteration. rewrite Hgen, Hfc.
  assert (Htruthy : truthy (JDict entries) = true).
  { destruct entries; [discriminate Hname | reflexivity]. }
  rewrite Htruthy. unfold handle_function_call. rewrite Hname, Hparams.
  assert (Hmem : in_tool_map error_text tool_map (JStr n) = Returned true).
  { unfold in_tool_map. f_equal. apply existsb_exists.
    apply in_map_iff in Hin as ([k f] & <- & Hentry).
    exists (k, f). split; [assumption | apply String.eqb_refl]. }
  rewrite Hmem.
  assert (Hnorm : exists parameters',
             normalize_time error_text (JDict parameters) = Returned (JDict parameters')).
  { unfold normalize_time. destruct (dict_has parameters "time") eqn:Hhas; [| eauto].
    destruct (Htime eq_refl) as [t ->]. simpl.
    destruct (round_time_to_nearest_hour t) as [rounded |]; [| eauto].
    destruct (String.eqb rounded ""); eauto. }
  destruct Hnorm as [parameters' ->].
  destruct (lookup_tool_in tool_map n Hin) as [f Hf].
  exists n, f, parameters'. split; [exact Hf |].
  unfold call_tool. rewrite Hf.
  destruct (f parameters' (bookings s)) as [[tool_result | e] db]; reflexivity.
Qed.

(** With the service stubbed to call a tool at every prompt, the loop runs
    until the counter reaches the limit and leaves the answer as it found
    it. *)
Lemma sequential_loop_exhausts fuel limit s :
  always_calls_a_tool generate_content clean_response_text extract_function_call
    tool_map ->
  tool_call_count s <= limit ->
  (Z.to_nat (limit - tool_call_count s) <= fuel)%nat ->
  exists s',
    loop fuel limit s = Some s'
    /\ tool_call_count s' = limit
    /\ final_assistant_response s' = final_assistant_response s
    /\ List.length (llm_messages s')
       = (List.length (llm_messages s) + 2 * Z.to_nat (limit - tool_call_count s))%nat.
Proof.
  intros Hstub. revert s.
  induction fuel as [| fuel IH]; intros s Hle Hfuel; simpl.
  - destruct (Z.ltb_spec (tool_call_count s) limit); [lia |].
    exists s. repeat split; lia.
  - destruct (Z.ltb_spec (tool_call_count s) limit) as [Hlt | Hge].
    + destruct (Hstub (format_history_for_gemma (llm_messages s)
                         AGENT_INITIAL_INSTRUCTIONS)) as (text & Hgen & Hwf).
      destruct (iteration_dispatch s text Hgen Hwf) as (n & f & parameters & _ & Hstep).
      fold step. rewrite Hstep.
      match goal with |- context [loop fuel limit ?s1] =>
        destruct (IH s1) as (s' & Hrun & Hcount & Hfinal & Hlen) end.
      * simpl. lia.
      * simpl. lia.
      * exists s'. split; [exact Hrun |]. split; [exact Hcount |].
        split; [exact Hfinal |].
        rewrite Hlen. simpl. rewrite length_app. simpl.
        replace (Z.to_nat (limit - tool_call_count s))
          with (S (Z.to_nat (limit - (tool_call_count s + 1)))) by lia.
        lia.
    + exists s. repeat split; lia.
Qed.


(** C9. When the operation named by the extracted directive is not in the
    registry, the loop ends on that pass without counting a tool call: the
    model's text and a description of the invalid name are appended to the
    history, and the answer shown to the user is the model's own text of
    that pass, not the error description. *)
Theorem unknown_operation_ends_the_loop
  (fuel : nat) (limit : Z) (s : session) (text : string)
  (entries : list (string * json)) :
  tool_call_count s < limit ->
  generate_content (format_history_for_gemma (llm_messages s) AGENT_INITIAL_INSTRUCTIONS)
  = Returned text ->
  extract_function_call (clean_response_text text) = JDict entries ->
  entries <> [] ->
  in_tool_map error_text tool_map (dict_get entries "name" JNull) = Returned false ->
  sequential_loop AGENT_INITIAL_INSTRUCTIONS generate_content clean_response_text
    extract_function_call error_text tool_map (S fuel) limit s
  = Some {| llm_messages :=
              (llm_messages s
               ++ [assistant (clean_response_text text);
                   user ("Invalid function name: "
                         ++ format_name (dict_get entries "name" JNull))])%list;
            tool_call_count := tool_call_count s;
            final_assistant_response := Some (clean_response_text text);
            bookings := bookings s |}.
Proof.
  intros Hlt Hgen Hfc Hne Hname. simpl.
  destruct (Z.ltb_spec (tool_call_count s) limit); [| lia].
  unfold iteration. rewrite Hgen, Hfc.
  destruct entries as [| entry entries]; [contradiction |].
  cbn [truthy]. unfold handle_function_call. rewrite Hname. reflexivity.
Qed.

(** C2. With the service stubbed to answer every prompt with a well-formed
    directive for a registered operation, the block that handles a user
    input makes [MAX_SEQUENTIAL_CALLS] = 4 tool calls, each adding two
    turns to the history, and stops; but the answer it then shows is
    [None], not the text of the last pass: no branch of a dispatching pass
    assigns [final_assistant_response]. *)
Theorem exhausted_loop_shows_no_text
  (user_input : string) (history : list message) (db : ledger) :
  always_calls_a_tool generate_content clean_response_text extract_function_call
    tool_map ->
  exists s',
    handle_user_input AGENT_INITIAL_INSTRUCTIONS generate_content clean_response_text
      extract_function_call error_text tool_map user_input history db = Some s'
    /\ tool_call_count s' = 4
    /\ List.length (llm_messages s') = (List.length history + 1 + 2 * 4)%nat
    /\ final_assistant_response s' = None.
Proof.
  intros Hstub. unfold handle_user_input.
  match goal with |- context [sequential_loop _ _ _ _ _ _ ?fuel ?limit ?s0] =>
    destruct (sequential_loop_exhausts fuel limit s0 Hstub)
      as (s' & Hrun & Hcount & Hfinal & Hlen) end.
  - simpl. unfold MAX_SEQUENTIAL_CALLS. lia.
  - simpl. unfold MAX_SEQUENTIAL_CALLS. lia.
  - exists s'. split; [exact Hrun |]. split; [exact Hcount |].
    split; [| exact Hfinal].
    rewrite Hlen. simpl. rewrite length_app. simpl. lia.
Qed.

End Loop.

(** A concrete run: every prompt is answered with the same directive. *)
Lemma exhausted_loop_shows_no_text_witness :
  let directive :=
    JDict [("name", JStr "noop"); ("parameters", JDict [])] in
  exists s',
    handle_user_input "" (fun _ => Returned "call") (fun text => text)
      (fun _ => directive) (fun _ => "error") noop_tool_map "hello" [] [] = Some s'
    /\ tool_call_count s' = 4
    /\ List.length (llm_messages s') = (List.length (@nil message) + 1 + 2 * 4)%nat
    /\ final_assistant_response s' = None.
Proof.
  apply (exhausted_loop_shows_no_text "" (fun _ => Returned "call") (fun text => text)
           (fun _ => JDict [("name", JStr "noop"); ("parameters", JDict [])])
           (fun _ => "error") noop_tool_map "hello" [] []).
  intros prompt. exists "call". split; [reflexivity |].
  exists [("name", JStr "noop"); ("parameters", JDict [])], "noop", [].
  repeat split; try reflexivity.
  - simpl. now left.
  - discriminate.
Defined.

Lemma unknown_operation_ends_the_loop_witness :
  let directive :=
    JDict [("name", JStr "cancel_reservation"); ("parameters", JDict [])] in
  let s := {| llm_messages := [user "cancel my table"]; tool_call_count := 2;
              final_assistant_response := None; bookings := [] |} in
  sequential_loop "" (fun _ => Returned "I will cancel it.") (fun text => text)
    (fun _ => directive) (fun _ => "error") noop_tool_map 1 MAX_SEQUENTIAL_CALLS s
  = Some {| llm_messages :=
              [user "cancel my table"; assistant "I will cancel it.";
               user "Invalid function name: cancel_reservation"];
            tool_call_count := 2;
            final_assistant_response := Some "I will cancel it.";
            bookings := [] |}.
Proof.
  apply (unknown_operation_ends_the_loop "" (fun _ => Returned "I will cancel it.")
           (fun text => text)
           (fun _ => JDict [("name", JStr "cancel_reservation"); ("parameters", JDict [])])
           (fun _ => "error") noop_tool_map 0 MAX_SEQUENTIAL_CALLS
           {| llm_messages := [user "cancel my table"]; tool_call_count := 2;
              final_assistant_response := None; bookings := [] |}
           "I will cancel it."
           [("name", JStr "cancel_reservation"); ("parameters", JDict [])]).
  - unfold MAX_SEQUENTIAL_CALLS. simpl. lia.
  - reflexivity.
  - reflexivity.
  - discriminate.
  - reflexivity.
Defined.

(** * Further properties *)

(** ** Time rounding *)

Lemma clock_fields_range t hour minute :
  clock_fields t = Some (hour, minute) ->
  0 <= hour <= 99 /\ 0 <= minute <= 99.
Proof.
  destruct t as [| c1 [| c2 [| c3 [| c4 rest]]]]; try discriminate.
  unfold clock_fields.
  destruct (PyStr.is_digit c1 && Ascii.eqb c2 ":" && PyStr.is_digit c3
            && PyStr.is_digit c4 && at_end_anchor rest) eqn:Hshort.
  - intros Heq.
    assert (Hhour : hour = PyStr.digit_value c1) by congruence.
    assert (Hminute : minute = 10 * PyStr.digit_value c3 + PyStr.digit_value c4)
      by congruence.
    apply andb_prop in Hshort as [Hshort _].
    apply andb_prop in Hshort as [Hshort Hd4].
    apply andb_prop in Hshort as [Hshort Hd3].
    apply andb_prop in Hshort as [Hd1 _].
    pose proof (digit_value_range _ Hd1). pose proof (digit_value_range _ Hd3).
    pose proof (digit_value_range _ Hd4). lia.
  - destruct rest as [| c5 rest']; [discriminate |].
    destruct (PyStr.is_digit c1 && PyStr.is_digit c2 && Ascii.eqb c3 ":"
              && PyStr.is_digit c4 && PyStr.is_digit c5 && at_end_anchor rest')
      eqn:Hlong; [| discriminate].
    intros Heq.
    assert (Hhour : hour = 10 * PyStr.digit_value c1 + PyStr.digit_value c2)
      by congruence.
    assert (Hminute : minute = 10 * PyStr.digit_value c4 + PyStr.digit_value c5)
      by congruence.
    apply andb_prop in Hlong as [Hlong _].
    apply andb_prop in Hlong as [Hlong Hd5].
    apply andb_prop in Hlong as [Hlong Hd4].
    apply andb_prop in Hlong as [Hlong _].
    apply andb_prop in Hlong as [Hd1 Hd2].
    pose proof (digit_value_range _ Hd1). pose proof (digit_value_range _ Hd2).
    pose proof (digit_value_range _ Hd4). pose proof (digit_value_range _ Hd5). lia.
Qed.

(** X1. Rounding moves a time by half an hour at most: on the 24-hour
    dial the rounded hour lies at most 30 minutes after the time read from
    the input, or fewer than 30 minutes before it. *)
Theorem round_time_within_half_hour (t r : string) (hour minute : Z) :
  clock_fields t = Some (hour, minute) ->
  round_time_to_nearest_hour t = Some r ->
  exists rounded_hour,
    r = on_the_hour rounded_hour
    /\ 0 <= rounded_hour <= 23
    /\ ((60 * rounded_hour - (60 * hour + minute)) mod 1440 <= 30
        \/ (60 * hour + minute - 60 * rounded_hour) mod 1440 < 30).
Proof.
  intros Hfields Hround.
  destruct (clock_fields_range _ _ _ Hfields) as [Hh Hm].
  rewrite round_time_by_fields, Hfields in Hround.
  unfold round_fields in Hround.
  destruct (Z.leb_spec hour 23) as [Hh23 |]; [| discriminate].
  destruct (Z.leb_spec minute 59) as [Hm59 |]; [| discriminate].
  simpl in Hround. injection Hround as <-.
  rewrite Z.geb_leb.
  destruct (Z.leb_spec 30 minute) as [Hhalf | Hhalf].
  - exists ((hour + 1) mod 24). split; [reflexivity |].
    split; [pose proof (Z.mod_pos_bound (hour + 1) 24); lia |].
    left. destruct (Z.eq_dec hour 23) as [-> | Hne].
    + change ((23 + 1) mod 24) with 0.
      replace (60 * 0 - (60 * 23 + minute)) with (60 - minute + (-1) * 1440) by lia.
      rewrite Z.mod_add by lia. rewrite Z.mod_small; lia.
    + rewrite (Z.mod_small (hour + 1) 24) by lia.
      rewrite Z.mod_small; lia.
  - exists hour. split; [reflexivity |]. split; [lia |].
    right. rewrite Z.mod_small; lia.
Qed.

Lemma round_time_within_half_hour_witness :
  exists rounded_hour,
    "00:00" = on_the_hour rounded_hour
    /\ 0 <= rounded_hour <= 23
    /\ ((60 * rounded_hour - (60 * 23 + 45)) mod 1440 <= 30
        \/ (60 * 23 + 45 - 60 * rounded_hour) mod 1440 < 30).
Proof.
  apply (round_time_within_half_hour "23:45" "00:00" 23 45); reflexivity.
Defined.

Lemma on_the_hour_canonical h :
  0 <= h <= 23 ->
  String.length (on_the_hour h) = 5%nat /\ clock_fields (on_the_hour h) = Some (h, 0).
Proof.
  intros Hh.
  assert (Hcases : In h [0;1;2;3;4;5;6;7;8;9;10;11;12;13;14;15;16;17;18;19;20;21;22;23]).
  { simpl. lia. }
  simpl in Hcases.
  repeat (destruct Hcases as [<- | Hcases]; [split; reflexivity |]).
  contradiction.
Qed.

Lemma on_the_hour_two_digits h :
  0 <= h <= 23 ->
  exists d1 d2,
    on_the_hour h = String d1 (String d2 ":00")
    /\ PyStr.is_digit d1 = true
    /\ PyStr.is_digit d2 = true
    /\ 10 * PyStr.digit_value d1 + PyStr.digit_value d2 = h.
Proof.
  intros Hh.
  assert (Hcases : In h [0;1;2;3;4;5;6;7;8;9;10;11;12;13;14;15;16;17;18;19;20;21;22;23]).
  { simpl. lia. }
  simpl in Hcases.
  repeat (destruct Hcases as [<- | Hcases];
          [do 2 eexists; repeat split; reflexivity |]).
  contradiction.
Qed.

(** X2. Every value returned by [round_time_to_nearest_hour] is written
    HH:00: exactly five characters, two digits that give an hour from 00
    to 23, a colon, and the minutes 00. *)
Theorem round_time_canonical (t r : string) :
  round_time_to_nearest_hour t = Some r ->
  exists d1 d2,
    r = String d1 (String d2 ":00")
    /\ PyStr.is_digit d1 = true
    /\ PyStr.is_digit d2 = true
    /\ 0 <= 10 * PyStr.digit_value d1 + PyStr.digit_value d2 <= 23.
Proof.
  intros Hround.
  destruct (round_time_result _ _ Hround) as (h & Hh & ->).
  destruct (on_the_hour_two_digits h Hh) as (d1 & d2 & Hr & Hd1 & Hd2 & Hhour).
  exists d1, d2. rewrite Hhour. repeat split; try assumption; lia.
Qed.

Lemma round_time_canonical_witness :
  exists d1 d2,
    "08:00" = String d1 (String d2 ":00")
    /\ PyStr.is_digit d1 = true
    /\ PyStr.is_digit d2 = true
    /\ 0 <= 10 * PyStr.digit_value d1 + PyStr.digit_value d2 <= 23.
Proof.
  apply (round_time_canonical "7:30" "08:00"). reflexivity.
Defined.

(** ** Rounding in the loop, then in the tool *)

Lemma rounded_time_is_fixed t rounded :
  round_time_to_nearest_hour t = Some rounded ->
  round_time_to_nearest_hour rounded = Some rounded.
Proof.
  intros H. destruct (round_time_result _ _ H) as (h & Hh & ->).
  now apply on_the_hour_fixed.
Qed.

(** The availability check on a time and on its rounded form: the same
    answer, or two refusals with the same message. *)
Lemma check_availability_rounded catalog restaurant_id date t rounded party_size db :
  round_time_to_nearest_hour t = Some rounded ->
  fst (check_availability catalog restaurant_id date rounded party_size db)
  = fst (check_availability catalog restaurant_id date t party_size db)
  \/ (available (fst (check_availability catalog restaurant_id date rounded party_size db))
      = false
      /\ available (fst (check_availability catalog restaurant_id date t party_size db))
         = false
      /\ av_message
           (fst (check_availability catalog restaurant_id date rounded party_size db))
         = av_message
             (fst (check_availability catalog restaurant_id date t party_size db))).
Proof.
  intros Ht. pose proof (rounded_time_is_fixed _ _ Ht) as Hfixed.
  unfold check_availability.
  destruct (party_size <=? 0); [right; repeat split |].
  destruct (lookup_restaurant catalog restaurant_id) as [r |]; [| right; repeat split].
  destruct (party_size >? r_capacity r); [right; repeat split |].
  rewrite Ht, Hfixed. left. reflexivity.
Qed.

(** X3. The loop rounds the time of a directive before it calls the tool,
    and the tool rounds again.  For a time that rounds, [make_reservation]
    called with the rounded time leaves the same ledger and gives the same
    success flag, message and reservation id as called with the time
    itself. *)
Theorem rounding_before_booking_is_harmless
  (catalog : list restaurant) (restaurant_id date t rounded : string)
  (party_size : Z) (user_name user_phone : string) (db : ledger) :
  round_time_to_nearest_hour t = Some rounded ->
  let direct :=
    make_reservation catalog restaurant_id date t party_size user_name user_phone db in
  let normalised :=
    make_reservation catalog restaurant_id date rounded party_size user_name user_phone
      db in
  snd normalised = snd direct
  /\ success (fst normalised) = success (fst direct)
  /\ bk_message (fst normalised) = bk_message (fst direct)
  /\ reservation_id (fst normalised) = reservation_id (fst direct).
Proof.
  intros Ht. cbv zeta. unfold make_reservation.
  destruct (String.eqb user_name "" || String.eqb user_phone "");
    [repeat split |].
  unfold bind.
  rewrite (check_availability_run catalog restaurant_id date t),
    (check_availability_run catalog restaurant_id date rounded).
  destruct (check_availability_rounded catalog restaurant_id date t rounded
              party_size db Ht) as [-> | (Hn & Hd & Hmsg)].
  - destruct (available _); repeat split.
  - rewrite Hn, Hd. simpl. rewrite Hmsg. repeat split.
Qed.

Lemma rounding_before_booking_is_harmless_witness :
  let direct := make_reservation [bistro] "r1" "2025-06-01" "19:40" 2 "Ann" "555" [] in
  let normalised :=
    make_reservation [bistro] "r1" "2025-06-01" "20:00" 2 "Ann" "555" [] in
  snd normalised = snd direct
  /\ success (fst normalised) = success (fst direct)
  /\ bk_message (fst normalised) = bk_message (fst direct)
  /\ reservation_id (fst normalised) = reservation_id (fst direct).
Proof.
  apply (rounding_before_booking_is_harmless [bistro] "r1" "2025-06-01" "19:40" "20:00"
           2 "Ann" "555" []).
  reflexivity.
Defined.

(** ** The prompt *)

Lemma string_app_assoc (a b c : string) : (a ++ b) ++ c = a ++ (b ++ c).
Proof.
  induction a as [| x a IH]; simpl; [reflexivity | now rewrite IH].
Qed.

Lemma string_app_nil_r (a : string) : a ++ "" = a.
Proof.
  induction a as [| x a IH]; simpl; [reflexivity | now rewrite IH].
Qed.

Lemma first_user_index_found i before m after :
  role m = "user" ->
  Forall (fun b => role b <> "user") before ->
  first_user_index i (before ++ m :: after) = Some (i + List.length before)%nat.
Proof.
  intros Hm Hbefore. revert i.
  induction Hbefore as [| b before Hb _ IH]; intros i; simpl.
  - rewrite Hm. simpl. f_equal. lia.
  - apply String.eqb_neq in Hb. rewrite Hb, IH. f_equal. lia.
Qed.

Lemma first_user_index_none i messages :
  Forall (fun b => role b <> "user") messages ->
  first_user_index i messages = None.
Proof.
  intros H. revert i. induction H as [| b rest Hb _ IH]; intros i; simpl.
  - reflexivity.
  - apply String.eqb_neq in Hb. now rewrite Hb.
Qed.

Lemma format_turns_cons idx instructions i m rest :
  format_turns idx instructions i (m :: rest)
  = turn (gemma_role m)
      (if Nat.eqb i idx && String.eqb (gemma_role m) "user"
       then instructions ++ nl ++ content m
       else content m)
    ++ format_turns idx instructions (S i) rest.
Proof.
  cbn [format_turns]. unfold turn, gemma_role.
  rewrite !string_app_assoc. reflexivity.
Qed.

(** Away from the chosen index the turns are plain. *)
Lemma format_turns_plain idx instructions i messages :
  (idx < i \/ i + List.length messages <= idx)%nat ->
  format_turns idx instructions i messages = plain_turns messages.
Proof.
  revert i. induction messages as [| m rest IH]; intros i Hidx.
  - reflexivity.
  - rewrite format_turns_cons.
    assert (Hne : Nat.eqb i idx = false).
    { apply Nat.eqb_neq. simpl in Hidx. lia. }
    rewrite Hne. cbn [andb plain_turns].
    rewrite IH by (simpl in Hidx; lia). reflexivity.
Qed.

Lemma format_turns_app idx instructions i before after :
  format_turns idx instructions i (before ++ after)
  = format_turns idx instructions i before
    ++ format_turns idx instructions (i + List.length before) after.
Proof.
  revert i. induction before as [| m rest IH]; intros i.
  - cbn [List.app List.length format_turns String.append]. now rewrite Nat.add_0_r.
  - cbn [List.app]. rewrite !format_turns_cons, IH, string_app_assoc.
    cbn [List.length].
    replace (S i + List.length rest)%nat with (i + S (List.length rest))%nat by lia.
    reflexivity.
Qed.

(** X4. When the history holds a message of role user, the instructions
    are put once, in front of the content of the first such message; every
    other message gives a turn with its own content, assistant messages
    under the role model and all others under the role user; the prompt
    ends with the line that opens the model's turn. *)
Theorem format_history_instructions_in_first_user_turn
  (before after : list message) (m : message) (initial_instructions : string) :
  role m = "user" ->
  Forall (fun b => role b <> "user") before ->
  format_history_for_gemma (before ++ m :: after) initial_instructions
  = plain_turns before
    ++ turn "user" (initial_instructions ++ nl ++ content m)
    ++ plain_turns after
    ++ model_opener.
Proof.
  intros Hm Hbefore. unfold format_history_for_gemma.
  destruct (before ++ m :: after)%list as [| m0 rest] eqn:Hmessages.
  { destruct before; discriminate. }
  rewrite <- Hmessages.
  rewrite (first_user_index_found 0 before m after Hm Hbefore).
  cbn [Nat.add].
  rewrite format_turns_app, format_turns_cons.
  rewrite !format_turns_plain by lia.
  rewrite Nat.eqb_refl.
  assert (Hrole : gemma_role m = "user") by (unfold gemma_role; now rewrite Hm).
  rewrite Hrole. cbn [andb String.eqb Ascii.eqb Bool.eqb].
  fold model_opener. rewrite !string_app_assoc. reflexivity.
Qed.

Lemma format_history_instructions_in_first_user_turn_witness :
  format_history_for_gemma
    ([{| role := "assistant"; content := "Welcome" |}]
     ++ {| role := "user"; content := "A table for two" |}
     :: [{| role := "assistant"; content := "Where?" |};
         {| role := "user"; content := "Downtown" |}])
    "Be kind."
  = plain_turns [{| role := "assistant"; content := "Welcome" |}]
    ++ turn "user" ("Be kind." ++ nl ++ "A table for two")
    ++ plain_turns [{| role := "assistant"; content := "Where?" |};
                    {| role := "user"; content := "Downtown" |}]
    ++ model_opener.
Proof.
  apply (format_history_instructions_in_first_user_turn
           [{| role := "assistant"; content := "Welcome" |}]
           [{| role := "assistant"; content := "Where?" |};
            {| role := "user"; content := "Downtown" |}]
           {| role := "user"; content := "A table for two" |} "Be kind.").
  - reflexivity.
  - repeat constructor. discriminate.
Defined.

(** X5. When no message of the history has the role user, the
    instructions go to the first message if it is not an assistant
    message, and are left out of the prompt altogether if it is. *)
Theorem format_history_without_user_message
  (m : message) (rest : list message) (initial_instructions : string) :
  Forall (fun b => role b <> "user") (m :: rest) ->
  format_history_for_gemma (m :: rest) initial_instructions
  = (if String.eqb (role m) "assistant"
     then plain_turns (m :: rest)
     else turn "user" (initial_instructions ++ nl ++ content m) ++ plain_turns rest)
    ++ model_opener.
Proof.
  intros Hno. unfold format_history_for_gemma.
  rewrite (first_user_index_none 0 (m :: rest) Hno).
  rewrite format_turns_cons, format_turns_plain by lia.
  fold model_opener. cbn [Nat.eqb andb plain_turns]. unfold gemma_role.
  destruct (String.eqb (role m) "assistant");
    cbn [String.eqb Ascii.eqb Bool.eqb]; rewrite !string_app_assoc; reflexivity.
Qed.

Lemma format_history_without_user_message_witness :
  format_history_for_gemma [{| role := "assistant"; content := "Welcome" |}] "Be kind."
  = plain_turns [{| role := "assistant"; content := "Welcome" |}] ++ model_opener.
Proof.
  apply (format_history_without_user_message
           {| role := "assistant"; content := "Welcome" |} [] "Be kind.").
  repeat constructor. discriminate.
Defined.

(** ** The tag vocabulary *)

Lemma set_of_in tag tags : In tag (set_of tags) <-> In tag tags.
Proof.
  induction tags as [| t rest IH]; simpl; [tauto |].
  destruct (existsb (String.eqb t) rest) eqn:Hdup.
  - rewrite IH. split; [tauto |]. intros [<- | H]; [| assumption].
    apply existsb_exists in Hdup as (x & Hx & Heq).
    apply String.eqb_eq in Heq. now subst.
  - simpl. rewrite IH. tauto.
Qed.

Lemma set_of_nodup tags : NoDup (set_of tags).
Proof.
  induction tags as [| t rest IH]; simpl; [constructor |].
  destruct (existsb (String.eqb t) rest) eqn:Hdup; [assumption |].
  constructor; [| assumption].
  rewrite set_of_in. intros Hin.
  assert (existsb (String.eqb t) rest = true).
  { apply existsb_exists. exists t. split; [assumption | apply String.eqb_refl]. }
  congruence.
Qed.

Lemma insert_sorted_in x tag tags :
  In x (insert_sorted tag tags) <-> x = tag \/ In x tags.
Proof.
  induction tags as [| t rest IH]; simpl.
  - intuition.
  - destruct (String.leb tag t); simpl; [intuition |].
    rewrite IH. intuition.
Qed.

Lemma insert_sorted_hd tag t rest :
  before_or_equal t tag -> HdRel before_or_equal t rest ->
  HdRel before_or_equal t (insert_sorted tag rest).
Proof.
  intros Htag Hhd. destruct rest as [| u rest]; simpl.
  - now constructor.
  - destruct (String.leb tag u); constructor; [assumption |].
    now inversion Hhd.
Qed.

Lemma insert_sorted_sorted tag tags :
  Sorted before_or_equal tags -> Sorted before_or_equal (insert_sorted tag tags).
Proof.
  induction 1 as [| t rest Hsorted IH Hhd]; simpl.
  - repeat constructor.
  - destruct (String.leb tag t) eqn:Hle.
    + constructor; [now constructor | now constructor].
    + constructor; [assumption |].
      apply insert_sorted_hd; [| assumption].
      destruct (String.leb_total tag t) as [H | H]; [congruence | exact H].
Qed.

Lemma insert_sorted_nodup tag tags :
  ~ In tag tags -> NoDup tags -> NoDup (insert_sorted tag tags).
Proof.
  intros Hfresh Hnodup. induction Hnodup as [| t rest Ht Hnodup IH]; simpl.
  - repeat constructor. tauto.
  - destruct (String.leb tag t).
    + constructor; [assumption | now constructor].
    + constructor.
      * rewrite insert_sorted_in. intros [-> | H]; [| contradiction].
        apply Hfresh. now left.
      * apply IH. intros H. apply Hfresh. now right.
Qed.

Lemma sorted_in x tags : In x (sorted tags) <-> In x tags.
Proof.
  induction tags as [| t rest IH]; simpl; [tauto |].
  rewrite insert_sorted_in, IH. intuition.
Qed.

Lemma sorted_sorted tags : Sorted before_or_equal (sorted tags).
Proof.
  induction tags as [| t rest IH]; simpl; [constructor |].
  now apply insert_sorted_sorted.
Qed.

Lemma sorted_nodup tags : NoDup tags -> NoDup (sorted tags).
Proof.
  induction 1 as [| t rest Ht Hnodup IH]; simpl; [constructor |].
  apply insert_sorted_nodup; [| assumption].
  now rewrite sorted_in.
Qed.

Lemma strictly_before_of_distinct a b :
  before_or_equal a b -> a <> b -> strictly_before a b.
Proof.
  unfold before_or_equal, strictly_before, String.leb, String.ltb.
  intros Hle Hne.
  destruct (String.compare a b) eqn:Hcmp; try reflexivity; try discriminate.
  apply String.compare_eq_iff in Hcmp. contradiction.
Qed.

Lemma sorted_strict tags :
  Sorted before_or_equal tags -> NoDup tags -> Sorted strictly_before tags.
Proof.
  induction 1 as [| t rest Hsorted IH Hhd]; intros Hnodup; [constructor |].
  inversion Hnodup as [| ? ? Ht Hrest]; subst.
  constructor; [now apply IH |].
  destruct Hhd as [| u rest Hle]; constructor.
  apply strictly_before_of_distinct; [assumption |].
  intros ->. apply Ht. now left.
Qed.

(** X6. The tag list is in strictly ascending order of code points, holds
    no tag twice, and holds exactly the tags carried by some restaurant of
    the catalog. *)
Theorem generate_tag_list_sorted_and_complete (catalog : list restaurant) :
  Sorted strictly_before (generate_tag_list catalog)
  /\ NoDup (generate_tag_list catalog)
  /\ (forall tag,
         In tag (generate_tag_list catalog)
         <-> exists restaurant, In restaurant catalog /\ In tag (r_tags restaurant)).
Proof.
  unfold generate_tag_list.
  assert (Hnodup : NoDup (sorted (set_of (flat_map r_tags catalog)))).
  { apply sorted_nodup, set_of_nodup. }
  split; [apply sorted_strict; [apply sorted_sorted | exact Hnodup] |].
  split; [exact Hnodup |].
  intros tag. rewrite sorted_in, set_of_in, in_flat_map. reflexivity.
Qed.

Lemma generate_tag_list_sorted_and_complete_witness :
  generate_tag_list [bistro] = ["french"; "wine"]
  /\ In "wine" (generate_tag_list [bistro]).
Proof.
  split; [reflexivity |].
  apply (proj2 (proj2 (generate_tag_list_sorted_and_complete [bistro]))).
  exists bistro. split; [now left | right; now left].
Defined.

(** ** Searching the catalog *)

(** [is_match] is the conjunction of the four filters. *)
Lemma is_match_filters name location tags party_size r :
  is_match name location tags party_size r
  = name_passes name r && location_passes location r && tags_pass tags r
    && party_size_passes party_size r.
Proof.
  unfold is_match, name_passes, location_passes, tags_pass, party_size_passes.
  rewrite Z.gtb_ltb.
  destruct (truthy_str name), (truthy_str location), (truthy_list tags),
    (truthy_int party_size); simpl;
    repeat match goal with
      | |- context [PyStr.contains ?a ?b] => destruct (PyStr.contains a b); simpl
      | |- context [any_tag_matches ?a ?b] => destruct (any_tag_matches a b); simpl
      end;
    try reflexivity;
    destruct (Z.leb_spec (get_int party_size) 0), (Z.ltb_spec 0 (get_int party_size)),
      (Z.ltb_spec (r_capacity r) (get_int party_size)),
      (Z.leb_spec (get_int party_size) (r_capacity r));
    simpl; try reflexivity; lia.
Qed.

Lemma lower_char_idempotent c :
  PyStr.lower_char (PyStr.lower_char c) = PyStr.lower_char c.
Proof.
  destruct c as [[] [] [] [] [] [] [] []]; reflexivity.
Qed.

Lemma lower_idempotent s : PyStr.lower (PyStr.lower s) = PyStr.lower s.
Proof.
  induction s as [| c s IH]; simpl; [reflexivity |].
  now rewrite lower_char_idempotent, IH.
Qed.

Lemma lower_empty s : String.eqb (PyStr.lower s) "" = String.eqb s "".
Proof. destruct s; reflexivity. Qed.

Lemma any_tag_matches_lower tags restaurant_tags :
  any_tag_matches (map PyStr.lower tags) restaurant_tags
  = any_tag_matches tags restaurant_tags.
Proof.
  unfold any_tag_matches. induction tags as [| tag tags IH]; simpl; [reflexivity |].
  now rewrite lower_idempotent, IH.
Qed.

Lemma filter_same {A : Type} (f g : A -> bool) (l : list A) :
  (forall x, f x = g x) -> filter f l = filter g l.
Proof.
  intros H. induction l as [| x l IH]; simpl; [reflexivity |].
  now rewrite H, IH.
Qed.

(** X7. The search does not look at the case of its filters: with the
    name, the location and every tag of the request put in lower case it
    finds the same restaurants. *)
Theorem find_restaurant_ignores_case
  (catalog : list restaurant) (name location : option string)
  (tags : option (list string)) (party_size : option Z) :
  find_restaurant catalog (option_map PyStr.lower name)
    (option_map PyStr.lower location) (option_map (map PyStr.lower) tags) party_size
  = find_restaurant catalog name location tags party_size.
Proof.
  unfold find_restaurant, find_matches.
  rewrite (filter_same _ (is_match name location tags party_size)); [reflexivity |].
  intros r. rewrite !is_match_filters.
  f_equal. f_equal. f_equal.
  - unfold name_passes. destruct name as [n |]; [| reflexivity].
    simpl. now rewrite lower_empty, lower_idempotent.
  - unfold location_passes. destruct location as [l |]; [| reflexivity].
    simpl. now rewrite lower_empty, lower_idempotent.
  - unfold tags_pass. destruct tags as [[| t ts] |]; try reflexivity.
    cbn [option_map truthy_list get_list map negb orb].
    apply (any_tag_matches_lower (t :: ts)).
Qed.

Lemma filter_filter {A : Type} (f g : A -> bool) (l : list A) :
  (forall x, f x = true -> g x = true) ->
  filter f (filter g l) = filter f l.
Proof.
  intros H. induction l as [| x l IH]; simpl; [reflexivity |].
  destruct (g x) eqn:Hg; simpl.
  - now rewrite IH.
  - destruct (f x) eqn:Hf; [| exact IH].
    rewrite (H x Hf) in Hg. discriminate.
Qed.

(** X8. The filters are conjunctive: the search with some filters left
    out finds every restaurant the full search finds, and the full search
    is the full filter applied to what the weaker search finds. *)
Theorem find_matches_filters_narrow
  (catalog : list restaurant) (name name' location location' : option string)
  (tags tags' : option (list string)) (party_size party_size' : option Z) :
  same_or_absent name' name ->
  same_or_absent location' location ->
  same_or_absent tags' tags ->
  same_or_absent party_size' party_size ->
  find_matches catalog name location tags party_size
  = filter (is_match name location tags party_size)
      (find_matches catalog name' location' tags' party_size')
  /\ incl (find_matches catalog name location tags party_size)
          (find_matches catalog name' location' tags' party_size').
Proof.
  intros Hn Hl Ht Hp.
  assert (Hweaker : forall r,
             is_match name location tags party_size r = true ->
             is_match name' location' tags' party_size' r = true).
  { intros r. rewrite !is_match_filters. intros H.
    apply andb_prop in H as [H H4]. apply andb_prop in H as [H H3].
    apply andb_prop in H as [H1 H2].
    destruct Hn as [-> | ->], Hl as [-> | ->], Ht as [-> | ->], Hp as [-> | ->];
      rewrite ?H1, ?H2, ?H3, ?H4; reflexivity. }
  unfold find_matches. split.
  - symmetry. now apply filter_filter.
  - intros r Hr. apply filter_In in Hr as [Hin Hr].
    apply filter_In. split; [assumption | now apply Hweaker].
Qed.

Lemma find_matches_filters_narrow_witness :
  find_matches [bistro] (Some "bis") None None (Some 2)
  = filter (is_match (Some "bis") None None (Some 2))
      (find_matches [bistro] None None None (Some 2))
  /\ incl (find_matches [bistro] (Some "bis") None None (Some 2))
          (find_matches [bistro] None None None (Some 2)).
Proof.
  apply (find_matches_filters_narrow [bistro] (Some "bis") None None None None None
           (Some 2) (Some 2)).
  - now left.
  - now left.
  - now left.
  - now right.
Defined.

(** X9. A restaurant is among the matches exactly when it is in the
    catalog and passes every filter that is given and not empty: its name
    and its location contain the requested texts, case apart; it carries
    one of the requested tags, case apart; and the party, when not 0, is
    positive and within its capacity. *)
Theorem find_matches_exactly_those_passing
  (catalog : list restaurant) (name location : option string)
  (tags : option (list string)) (party_size : option Z) (r : restaurant) :
  In r (find_matches catalog name location tags party_size)
  <-> In r catalog
      /\ (forall n, name = Some n -> n <> "" ->
            PyStr.contains (PyStr.lower n) (PyStr.lower (r_name r)) = true)
      /\ (forall l, location = Some l -> l <> "" ->
            PyStr.contains (PyStr.lower l) (PyStr.lower (r_location r)) = true)
      /\ (forall ts, tags = Some ts -> ts <> [] ->
            exists tag restaurant_tag,
              In tag ts /\ In restaurant_tag (r_tags r)
              /\ PyStr.lower tag = PyStr.lower restaurant_tag)
      /\ (forall p, party_size = Some p -> p <> 0 -> 0 < p <= r_capacity r).
Proof.
  unfold find_matches. rewrite filter_In, is_match_filters.
  rewrite !andb_true_iff.
  assert (Hname : name_passes name r = true
                  <-> forall n, name = Some n -> n <> "" ->
                        PyStr.contains (PyStr.lower n) (PyStr.lower (r_name r)) = true).
  { unfold name_passes. destruct name as [n |]; simpl.
    - destruct (String.eqb_spec n "") as [-> | Hne]; simpl.
      + split; [| reflexivity]. intros _ n' [= <-] H. now contradiction H.
      + split; [intros H n' [= <-] _; exact H | intros H; now apply H].
    - split; [discriminate | reflexivity]. }
  assert (Hlocation : location_passes location r = true
                  <-> forall l, location = Some l -> l <> "" ->
                        PyStr.contains (PyStr.lower l) (PyStr.lower (r_location r))
                        = true).
  { unfold location_passes. destruct location as [l |]; simpl.
    - destruct (String.eqb_spec l "") as [-> | Hne]; simpl.
      + split; [| reflexivity]. intros _ l' [= <-] H. now contradiction H.
      + split; [intros H l' [= <-] _; exact H | intros H; now apply H].
    - split; [discriminate | reflexivity]. }
  assert (Htags : tags_pass tags r = true
                  <-> forall ts, tags = Some ts -> ts <> [] ->
                        exists tag restaurant_tag,
                          In tag ts /\ In restaurant_tag (r_tags r)
                          /\ PyStr.lower tag = PyStr.lower restaurant_tag).
  { assert (Hany : forall ts,
               any_tag_matches ts (r_tags r) = true
               <-> exists tag restaurant_tag,
                     In tag ts /\ In restaurant_tag (r_tags r)
                     /\ PyStr.lower tag = PyStr.lower restaurant_tag).
    { intros ts. unfold any_tag_matches. rewrite existsb_exists. split.
      - intros (tag & Htag & Hex). apply existsb_exists in Hex as (low & Hlow & Heq).
        apply in_map_iff in Hlow as (rt & <- & Hrt).
        apply String.eqb_eq in Heq. exists tag, rt. auto.
      - intros (tag & rt & Htag & Hrt & Heq). exists tag. split; [assumption |].
        apply existsb_exists. exists (PyStr.lower rt).
        split; [now apply in_map | now apply String.eqb_eq]. }
    unfold tags_pass. destruct tags as [[| t ts] |];
      cbn [truthy_list get_list negb orb].
    - split; [| reflexivity]. intros _ ts' [= <-] H. now contradiction H.
    - rewrite Hany. split; [intros H ts' [= <-] _; exact H |].
      intros H. apply H; [reflexivity | discriminate].
    - split; [discriminate | reflexivity]. }
  assert (Hparty : party_size_passes party_size r = true
                   <-> forall p, party_size = Some p -> p <> 0 ->
                         0 < p <= r_capacity r).
  { unfold party_size_passes. destruct party_size as [p |]; simpl.
    - destruct (Z.eqb_spec p 0) as [-> | Hne]; simpl.
      + split; [| reflexivity]. intros _ p' [= <-] H. now contradiction H.
      + rewrite andb_true_iff, Z.ltb_lt, Z.leb_le.
        split; [intros H p' [= <-] _; exact H | intros H; now apply H].
    - split; [discriminate | reflexivity]. }
  rewrite Hname, Hlocation, Htags, Hparty. tauto.
Qed.

Lemma find_matches_exactly_those_passing_witness :
  In bistro (find_matches [bistro] (Some "BIS") (Some "town") (Some ["Wine"]) (Some 4)).
Proof.
  apply (find_matches_exactly_those_passing [bistro] (Some "BIS") (Some "town")
           (Some ["Wine"]) (Some 4) bistro).
  split; [now left |].
  split; [intros n [= <-] _; reflexivity |].
  split; [intros l [= <-] _; reflexivity |].
  split.
  - intros ts [= <-] _. exists "Wine", "wine".
    split; [now left |]. split; [right; now left | reflexivity].
  - intros p [= <-] _. simpl. lia.
Defined.

(** ** Bookings, one after another *)

(** The answer and the table after a call whose availability check
    passes and whose [INSERT] goes through. *)
Lemma make_reservation_confirmed
  catalog restaurant_id date time party_size user_name user_phone db :
  user_name <> "" -> user_phone <> "" ->
  available (fst (check_availability catalog restaurant_id date time party_size db))
  = true ->
  insertable db party_size ->
  exists restaurant rounded_time,
    lookup_restaurant catalog restaurant_id = Some restaurant
    /\ round_time_to_nearest_hour time = Some rounded_time
    /\ 0 < party_size
    /\ total_booked restaurant_id date rounded_time db + party_size
       <= r_capacity restaurant
    /\ make_reservation catalog restaurant_id date time party_size user_name user_phone db
       = (booking_confirmation restaurant restaurant_id date rounded_time party_size
            user_name user_phone (next_rowid db),
          (db ++ [booked_row db restaurant_id date rounded_time party_size
                    user_name user_phone])%list).
Proof.
  intros Hn Hph Hav Hins.
  destruct (make_reservation_available _ _ _ _ _ _ _ _ Hn Hph Hav)
    as (r & rounded & Hr & Ht & Hp & Hfit & ->).
  rewrite (reserve_in_transaction_run _ _ _ _ _ _ _ _ r Hr Hfit).
  destruct (insertable_passes _ _ Hins) as [-> ->].
  exists r, rounded. repeat split; assumption.
Qed.



(** X11. Called one after another, on a table whose party sizes SQLite
    can add up, [make_reservation] has four answers only: the refusal for a missing name or phone number; the refusal of
    the availability check, with the message of the check; the
    confirmation, with one row appended, when SQLite can store the row;
    and, when it cannot, the answer of the [except] branch: "Failed to
    make reservation: " and the text of the exception of the [INSERT] (a
    party size beyond 64 bits, or no row id left), with nothing inserted.
    The refusal of the check made again inside the transaction is never
    given. *)
Theorem make_reservation_outcomes
  (catalog : list restaurant) (restaurant_id date time : string) (party_size : Z)
  (user_name user_phone : string) (db : ledger) :
  summable db ->
  let check := fst (check_availability catalog restaurant_id date time party_size db) in
  let booking :=
    make_reservation catalog restaurant_id date time party_size user_name user_phone db in
  ((user_name = "" \/ user_phone = "")
   /\ booking
      = (booking_failure restaurant_id date time party_size user_name user_phone
           "Name and phone number are required for reservation.", db))
  \/ (user_name <> "" /\ user_phone <> "" /\ available check = false
      /\ booking
         = (booking_failure restaurant_id date time party_size user_name user_phone
              (av_message check), db))
  \/ (user_name <> "" /\ user_phone <> "" /\ available check = true
      /\ insertable db party_size
      /\ exists restaurant,
           lookup_restaurant catalog restaurant_id = Some restaurant
           /\ booking
              = (booking_confirmation restaurant restaurant_id date (av_time check)
                   party_size user_name user_phone (next_rowid db),
                 (db ++ [booked_row db restaurant_id date (av_time check) party_size
                           user_name user_phone])%list))
  \/ (user_name <> "" /\ user_phone <> "" /\ available check = true
      /\ exists e,
           ((max_int64 < party_size
             /\ e = "Python int too large to convert to SQLite INTEGER")
            \/ (party_size <= max_int64 /\ max_int64 < next_rowid db
                /\ e = "database or disk is full"))
           /\ booking
              = (booking_failure restaurant_id date (av_time check) party_size
                   user_name user_phone ("Failed to make reservation: " ++ e), db)).
Proof.
  intros _. cbv zeta.
  destruct (String.eqb_spec user_name "") as [Hn | Hn].
  { left. split; [now left |]. unfold make_reservation. subst. reflexivity. }
  destruct (String.eqb_spec user_phone "") as [Hph | Hph].
  { left. split; [now right |]. unfold make_reservation.
    subst. rewrite orb_true_r. reflexivity. }
  destruct (available (fst (check_availability catalog restaurant_id date time
                              party_size db))) eqn:Hav.
  - destruct (available_inv _ _ _ _ _ _ Hav) as (r' & rounded' & _ & Ht' & _ & _ & Htime).
    destruct (insertable_cases db party_size) as [Hins | Hins].
    + right. right. left.
      split; [assumption |]. split; [assumption |]. split; [reflexivity |].
      split; [assumption |].
      destruct (make_reservation_confirmed catalog restaurant_id date time party_size
                  user_name user_phone db Hn Hph Hav Hins)
        as (r & rounded & Hr & Ht & Hp & Hfit & ->).
      rewrite Htime.
      assert (rounded' = rounded) as -> by congruence.
      exists r. split; [assumption | reflexivity].
    + right. right. right.
      split; [assumption |]. split; [assumption |]. split; [reflexivity |].
      destruct (make_reservation_insert_raises catalog restaurant_id date time party_size
                  user_name user_phone db Hn Hph Hav Hins)
        as (rounded & e & Ht & He & ->).
      rewrite Htime.
      assert (rounded' = rounded) as -> by congruence.
      exists e. split; [assumption | reflexivity].
  - right. left. repeat split; try assumption.
    now apply make_reservation_unavailable.
Qed.

Lemma make_reservation_outcomes_witness :
  summable []
  /\ let check := fst (check_availability [bistro] "r1" "2025-06-01" "19:10" 3 []) in
     let booking := make_reservation [bistro] "r1" "2025-06-01" "19:10" 3 "Ann" "555" [] in
     (("Ann" = "" \/ "555" = "")
      /\ booking
         = (booking_failure "r1" "2025-06-01" "19:10" 3 "Ann" "555"
              "Name and phone number are required for reservation.", []))
     \/ ("Ann" <> "" /\ "555" <> "" /\ available check = false
         /\ booking
            = (booking_failure "r1" "2025-06-01" "19:10" 3 "Ann" "555"
                 (av_message check), []))
     \/ ("Ann" <> "" /\ "555" <> "" /\ available check = true
         /\ insertable [] 3
         /\ exists restaurant,
              lookup_restaurant [bistro] "r1" = Some restaurant
              /\ booking
                 = (booking_confirmation restaurant "r1" "2025-06-01" (av_time check)
                      3 "Ann" "555" (next_rowid []),
                    ([] ++ [booked_row [] "r1" "2025-06-01" (av_time check) 3
                              "Ann" "555"])%list))
     \/ ("Ann" <> "" /\ "555" <> "" /\ available check = true
         /\ exists e,
              ((max_int64 < 3
                /\ e = "Python int too large to convert to SQLite INTEGER")
               \/ (3 <= max_int64 /\ max_int64 < next_rowid []
                   /\ e = "database or disk is full"))
              /\ booking
                 = (booking_failure "r1" "2025-06-01" (av_time check) 3
                      "Ann" "555" ("Failed to make reservation: " ++ e), [])).
Proof.
  assert (Hsum : summable []).
  { split; [constructor | unfold max_int64; cbn [sum_party_size fold_right]; lia]. }
  split; [exact Hsum |].
  exact (make_reservation_outcomes [bistro] "r1" "2025-06-01" "19:10" 3 "Ann" "555" []
           Hsum).
Defined.

(** What one call does to the table: nothing, or one row appended. *)
Lemma book_effect catalog req db :
  (success (fst (book catalog req db)) = false /\ snd (book catalog req db) = db)
  \/ exists restaurant rounded_time,
       lookup_restaurant catalog (req_restaurant_id req) = Some restaurant
       /\ round_time_to_nearest_hour (req_time req) = Some rounded_time
       /\ 0 < req_party_size req
       /\ total_booked (req_restaurant_id req) (req_date req) rounded_time db
          + req_party_size req <= r_capacity restaurant
       /\ req_user_name req <> "" /\ req_user_phone req <> ""
       /\ book catalog req db
          = (booking_confirmation restaurant (req_restaurant_id req) (req_date req)
               rounded_time (req_party_size req) (req_user_name req)
               (req_user_phone req) (next_rowid db),
             (db ++ [booked_row db (req_restaurant_id req) (req_date req) rounded_time
                       (req_party_size req) (req_user_name req) (req_user_phone req)])%list).
Proof.
  unfold book. destruct req as [rid date time p name phone]; simpl.
  destruct (String.eqb_spec name "") as [Hn | Hn].
  { left. now apply refused_result; left. }
  destruct (String.eqb_spec phone "") as [Hph | Hph].
  { left. now apply refused_result; right; left. }
  destruct (available (fst (check_availability catalog rid date time p db))) eqn:Hav.
  2: { left. now apply refused_result; right; right. }
  destruct (insertable_cases db p) as [Hins | Hins].
  2: { left.
       destruct (make_reservation_insert_raises catalog rid date time p name phone db
                   Hn Hph Hav Hins) as (rounded & e & _ & _ & ->).
       split; reflexivity. }
  right.
  destruct (make_reservation_confirmed catalog rid date time p name phone db Hn Hph Hav
              Hins)
    as (r & rounded & Hr & Ht & Hp & Hfit & E).
  exists r, rounded. repeat split; assumption.
Qed.

Lemma run_bookings_app catalog requests requests' db :
  run_bookings catalog (requests ++ requests') db
  = run_bookings catalog requests' (run_bookings catalog requests db).
Proof.
  revert db. induction requests as [| req rest IH]; intros db; simpl;
    [reflexivity | apply IH].
Qed.

(** X12. The ledger only grows at its end: after any sequence of
    [make_reservation] calls the rows that were there are still there, in
    place and unchanged, followed by at most one new row per call. *)
Theorem ledger_append_only
  (catalog : list restaurant) (requests : list booking_request) (db : ledger) :
  exists added,
    run_bookings catalog requests db = (db ++ added)%list
    /\ (List.length added <= List.length requests)%nat.
Proof.
  revert db. induction requests as [| req rest IH]; intros db; simpl.
  - exists (@nil reservation). split; [now rewrite app_nil_r | simpl; lia].
  - destruct (book_effect catalog req db)
      as [[_ ->] | (r & rounded & _ & _ & _ & _ & _ & _ & ->)].
    + destruct (IH db) as (added & -> & Hlen). exists added. split; [reflexivity | lia].
    + simpl snd.
      match goal with |- context [run_bookings catalog rest (db ++ [?row])%list] =>
        destruct (IH (db ++ [row])%list) as (added & -> & Hlen);
        exists (row :: added) end.
      split; [now rewrite <- app_assoc | simpl; lia].
Qed.

(** Row ids that count up from 1. *)
Lemma next_rowid_counts_up db :
  map res_id db = map Z.of_nat (seq 1 (List.length db)) ->
  next_rowid db = Z.of_nat (S (List.length db)).
Proof.
  unfold next_rowid. intros Hids.
  assert (Hmax : forall ids n,
             ids = map Z.of_nat (seq 1 n) ->
             fold_right Z.max 0 ids = Z.of_nat n).
  { intros ids n ->. induction n as [| n IH]; [reflexivity |].
    rewrite seq_S, map_app, fold_right_app. simpl.
    assert (Hgen : forall l acc, 0 <= acc ->
               Forall (fun x => x <= acc) l -> fold_right Z.max acc l = acc).
    { induction l as [| x l IHl]; intros acc Hacc Hall; simpl; [reflexivity |].
      inversion Hall; subst. rewrite IHl by assumption. lia. }
    rewrite Hgen; [lia | lia |].
    apply Forall_forall. intros x Hx. apply in_map_iff in Hx as (k & <- & Hk).
    apply in_seq in Hk. lia. }
  assert (Hfold : fold_right (fun row acc => Z.max (res_id row) acc) 0 db
                  = fold_right Z.max 0 (map res_id db)).
  { clear. induction db as [| row db IH]; simpl; [reflexivity | now rewrite IH]. }
  rewrite Hfold, (Hmax _ _ Hids). lia.
Qed.

Lemma run_bookings_ids catalog requests db :
  map res_id db = map Z.of_nat (seq 1 (List.length db)) ->
  map res_id (run_bookings catalog requests db)
  = map Z.of_nat (seq 1 (List.length (run_bookings catalog requests db))).
Proof.
  revert db. induction requests as [| req rest IH]; intros db Hids; simpl.
  - assumption.
  - apply IH.
    destruct (book_effect catalog req db)
      as [[_ ->] | (r & rounded & _ & _ & _ & _ & _ & _ & ->)]; [assumption |].
    simpl snd. rewrite map_app, length_app. simpl.
    rewrite Nat.add_1_r, seq_S, map_app, <- Hids. simpl.
    now rewrite (next_rowid_counts_up db Hids).
Qed.

(** X13. Reservation ids are never given twice: in a ledger filled from
    empty by [make_reservation] calls the rows carry the ids 1, 2, 3, ...
    in the order of booking, and the next confirmed booking is answered
    with the id made of "res" and the number of rows plus one. *)
Theorem reservation_ids_count_up
  (catalog : list restaurant) (requests : list booking_request)
  (req : booking_request) :
  let db := run_bookings catalog requests [] in
  map res_id db = map Z.of_nat (seq 1 (List.length db))
  /\ NoDup (map res_id db)
  /\ (success (fst (book catalog req db)) = true ->
      reservation_id (fst (book catalog req db))
      = Some ("res" ++ PyStr.str (Z.of_nat (List.length db) + 1))).
Proof.
  cbv zeta.
  assert (Hids : map res_id (run_bookings catalog requests [])
                 = map Z.of_nat (seq 1 (List.length (run_bookings catalog requests [])))).
  { now apply run_bookings_ids. }
  split; [exact Hids |]. split.
  - rewrite Hids. apply Finite.Injective_map_NoDup; [| apply seq_NoDup].
    intros a b. apply Nat2Z.inj.
  - destruct (book_effect catalog req (run_bookings catalog requests []))
      as [[Hfail _] | (r & rounded & _ & _ & _ & _ & _ & _ & ->)].
    + rewrite Hfail. discriminate.
    + intros _. cbn [fst booking_confirmation reservation_id].
      rewrite (next_rowid_counts_up _ Hids), Nat2Z.inj_succ.
      unfold Z.succ. reflexivity.
Qed.

Lemma reservation_ids_count_up_witness :
  let requests :=
    [ {| req_restaurant_id := "r1"; req_date := "2025-06-01"; req_time := "18:40";
         req_party_size := 3; req_user_name := "Ann"; req_user_phone := "555" |} ] in
  let req :=
    {| req_restaurant_id := "r1"; req_date := "2025-06-02"; req_time := "12:00";
       req_party_size := 2; req_user_name := "Bob"; req_user_phone := "556" |} in
  let db := run_bookings [bistro] requests [] in
  reservation_id (fst (book [bistro] req db))
  = Some ("res" ++ PyStr.str (Z.of_nat (List.length db) + 1))
  /\ "res" ++ PyStr.str (Z.of_nat (List.length db) + 1) = "res2".
Proof.
  cbv zeta. split; [| reflexivity].
  apply (proj2 (proj2 (reservation_ids_count_up [bistro]
    [ {| req_restaurant_id := "r1"; req_date := "2025-06-01"; req_time := "18:40";
         req_party_size := 3; req_user_name := "Ann"; req_user_phone := "555" |} ]
    {| req_restaurant_id := "r1"; req_date := "2025-06-02"; req_time := "12:00";
       req_party_size := 2; req_user_name := "Bob"; req_user_phone := "556" |}))).
  reflexivity.
Defined.

Lemma run_bookings_rows_well_formed catalog requests db :
  Forall (well_formed_row catalog) db ->
  Forall (well_formed_row catalog) (run_bookings catalog requests db).
Proof.
  revert db. induction requests as [| req rest IH]; intros db Hdb; simpl.
  - assumption.
  - apply IH.
    destruct (book_effect catalog req db)
      as [[_ ->] | (r & rounded & Hr & Ht & Hp & Hfit & Hn & Hph & ->)];
      [assumption |].
    simpl snd. apply Forall_app. split; [assumption |].
    constructor; [| constructor].
    destruct (round_time_result _ _ Ht) as (h & Hh & ->).
    exists r, h. unfold booked_row. simpl.
    repeat split; try assumption; try lia.
    assert (0 <= total_booked (req_restaurant_id req) (req_date req) (on_the_hour h) db);
      [| lia].
    rewrite total_booked_sum.
    assert (Hsum : forall rows,
               Forall (well_formed_row catalog) rows -> 0 <= sum_party_size rows).
    { induction 1 as [| row rows (r' & h' & _ & Hpos & _) _ IHrows]; simpl; lia. }
    apply Hsum. unfold slot_rows.
    apply Forall_forall. intros row Hrow. apply filter_In in Hrow as [Hrow _].
    revert row Hrow. now apply Forall_forall.
Qed.

(** X14. Every reservation committed by [make_reservation] is well
    formed: in a ledger filled from empty, each row names a restaurant of
    the catalog, has a positive party size within that restaurant's
    capacity, a time on the hour between 00:00 and 23:00, and a name and a
    phone number that are not empty. *)
Theorem committed_rows_are_well_formed
  (catalog : list restaurant) (requests : list booking_request) :
  Forall (well_formed_row catalog) (run_bookings catalog requests []).
Proof.
  apply run_bookings_rows_well_formed. constructor.
Qed.



Lemma book_total_grows catalog req db restaurant_id date time :
  total_booked restaurant_id date time db
  <= total_booked restaurant_id date time (snd (book catalog req db)).
Proof.
  destruct (book_effect catalog req db)
    as [[_ ->] | (r & rounded & _ & _ & Hp & _ & _ & _ & ->)]; [lia |].
  simpl snd. rewrite total_booked_snoc.
  destruct (in_slot _ _ _ _); simpl; lia.
Qed.

(** X16. Booked totals never go down: after any further sequence of
    [make_reservation] calls the seats booked in any slot are at least
    what they were. *)
Theorem booked_totals_never_decrease
  (catalog : list restaurant) (requests : list booking_request) (db : ledger)
  (restaurant_id date time : string) :
  total_booked restaurant_id date time db
  <= total_booked restaurant_id date time (run_bookings catalog requests db).
Proof.
  revert db. induction requests as [| req rest IH]; intros db; simpl; [lia |].
  pose proof (book_total_grows catalog req db restaurant_id date time).
  pose proof (IH (snd (book catalog req db))). lia.
Qed.

(** ** The loop, for any generation service *)

Section AnyService.

Variable AGENT_INITIAL_INSTRUCTIONS : string.
Variable generate_content : string -> outcome string.
Variable clean : string -> string.
Variable extract : string -> json.
Variable error_text : runtime_error -> string.
Variable tool_map : list (string * tool).

Let step :=
  iteration AGENT_INITIAL_INSTRUCTIONS generate_content clean extract error_text
    tool_map.
Let loop :=
  sequential_loop AGENT_INITIAL_INSTRUCTIONS generate_content clean extract error_text
    tool_map.

(** What a pass adds to the history. *)
Lemma iteration_history s :
  match step s with
  | (Continue, s') =>
      tool_call_count s' = tool_call_count s + 1
      /\ final_assistant_response s' = final_assistant_response s
      /\ exists reply result,
           llm_messages s' = (llm_messages s ++ [assistant reply; user result])%list
  | (Break, s') =>
      tool_call_count s' = tool_call_count s
      /\ final_assistant_response s' <> None
      /\ exists added,
           llm_messages s' = (llm_messages s ++ added)%list
           /\ alternating true added
           /\ (List.length added <= 2)%nat
  end.
Proof.
  assert (Hstay : forall text,
             tool_call_count (answer s text) = tool_call_count s
             /\ final_assistant_response (answer s text) <> None
             /\ exists added,
                  llm_messages (answer s text) = (llm_messages s ++ added)%list
                  /\ alternating true added
                  /\ (List.length added <= 2)%nat).
  { intros text. split; [reflexivity |]. split; [discriminate |].
    exists []. simpl. rewrite app_nil_r. repeat split. lia. }
  unfold step, iteration, handle_function_call, generation_error.
  destruct (generate_content _) as [text | e]; [| apply Hstay].
  destruct (truthy _).
  2: { split; [reflexivity |]. split; [discriminate |].
       exists [assistant (clean text)]. simpl. repeat split. lia. }
  destruct (extract _); try apply Hstay.
  destruct (in_tool_map _ _ _) as [[|] | e]; try apply Hstay.
  - destruct (normalize_time _ _) as [parameters | e]; [| apply Hstay].
    destruct (call_tool _ _ _ _ _) as [[tool_result | e] db];
      (split; [reflexivity |]; split; [reflexivity |]; eexists; eexists; reflexivity).
  - split; [reflexivity |]. split; [discriminate |].
    eexists. split; [reflexivity |]. simpl. repeat split. lia.
Qed.

Lemma alternating_after_pair reply result added :
  alternating true added ->
  alternating true ([assistant reply; user result] ++ added).
Proof. simpl. auto. Qed.

(** The state in which the loop ends, from a state that has no answer
    yet. *)
Lemma sequential_loop_invariant fuel limit s s' :
  loop fuel limit s = Some s' ->
  tool_call_count s <= limit ->
  final_assistant_response s = None ->
  tool_call_count s <= tool_call_count s' <= limit
  /\ (final_assistant_response s' = None <-> tool_call_count s' = limit)
  /\ exists added,
       llm_messages s' = (llm_messages s ++ added)%list
       /\ alternating true added
       /\ Z.of_nat (List.length added)
          <= 2 * (tool_call_count s' - tool_call_count s) + 2.
Proof.
  revert s. induction fuel as [| fuel IH]; intros s Hrun Hle Hnone; simpl in Hrun.
  - destruct (Z.ltb_spec (tool_call_count s) limit); [discriminate |].
    injection Hrun as <-. split; [lia |]. split; [split; [intros _; lia | auto] |].
    exists []. rewrite app_nil_r. repeat split. simpl List.length. lia.
  - destruct (Z.ltb_spec (tool_call_count s) limit) as [Hlt | Hge].
    + pose proof (iteration_history s) as Hpass. fold step in Hrun.
      destruct (step s) as [[|] s1].
      * destruct Hpass as (Hcount & Hfinal & reply & result & Hturns).
        destruct (IH s1 Hrun) as (Hbound & Hiff & added & Hadded & Halt & Hlen);
          [lia | congruence |].
        split; [lia |]. split; [exact Hiff |].
        exists ([assistant reply; user result] ++ added)%list.
        split; [rewrite Hadded, Hturns, <- app_assoc; reflexivity |].
        split; [now apply alternating_after_pair |].
        rewrite length_app. simpl List.length. lia.
      * injection Hrun as <-.
        destruct Hpass as (Hcount & Hfinal & added & Hadded & Halt & Hlen).
        split; [lia |]. split; [split; [contradiction | lia] |].
        exists added. repeat split; try assumption. lia.
    + injection Hrun as <-. split; [lia |]. split; [split; [intros _; lia | auto] |].
      exists []. rewrite app_nil_r. repeat split. simpl List.length. lia.
Qed.




(** X18. The block that handles a user input ends without an answer to
    show, [final_assistant_response] being [None], exactly when it has
    made all the [MAX_SEQUENTIAL_CALLS] = 4 tool calls. *)
Theorem no_answer_exactly_when_exhausted
  (user_input : string) (history : list message) (db : ledger) (s' : session) :
  handle_user_input AGENT_INITIAL_INSTRUCTIONS generate_content clean extract
    error_text tool_map user_input history db = Some s' ->
  final_assistant_response s' = None <-> tool_call_count s' = 4.
Proof.
  unfold handle_user_input. intros Hrun.
  apply sequential_loop_invariant in Hrun as (_ & Hiff & _);
    [| simpl; unfold MAX_SEQUENTIAL_CALLS; lia | reflexivity].
  exact Hiff.
Qed.

(** X19. When the generation service fails at a request, the turn ends
    there: the user is shown the text "Error generating response: "
    followed by the error, and the history, the count of tool calls and
    the bookings stay as they were before the request. *)
Theorem service_failure_ends_the_turn
  (fuel : nat) (limit : Z) (s : session) (e : string) :
  tool_call_count s < limit ->
  generate_content (format_history_for_gemma (llm_messages s) AGENT_INITIAL_INSTRUCTIONS)
  = Raised e ->
  sequential_loop AGENT_INITIAL_INSTRUCTIONS generate_content clean extract error_text
    tool_map (S fuel) limit s
  = Some {| llm_messages := llm_messages s;
            tool_call_count := tool_call_count s;
            final_assistant_response := Some ("Error generating response: " ++ e);
            bookings := bookings s |}.
Proof.
  intros Hlt Hgen. simpl.
  destruct (Z.ltb_spec (tool_call_count s) limit); [| lia].
  unfold iteration. rewrite Hgen. reflexivity.
Qed.

(** X20. A directive whose value is not a mapping (a string, a number, a
    list or [true]) is not taken for a plain answer: the call of [.get] on
    it raises, and the turn ends with the text "Error generating
    response: " and the interpreter's message, the history, the count of
    tool calls and the bookings being left as they were. *)
Theorem directive_not_a_mapping_ends_the_turn
  (fuel : nat) (limit : Z) (s : session) (text : string) :
  tool_call_count s < limit ->
  generate_content (format_history_for_gemma (llm_messages s) AGENT_INITIAL_INSTRUCTIONS)
  = Returned text ->
  truthy (extract (clean text)) = true ->
  (forall entries, extract (clean text) <> JDict entries) ->
  sequential_loop AGENT_INITIAL_INSTRUCTIONS generate_content clean extract error_text
    tool_map (S fuel) limit s
  = Some {| llm_messages := llm_messages s;
            tool_call_count := tool_call_count s;
            final_assistant_response :=
              Some ("Error generating response: "
                    ++ error_text (NoGetAttribute (extract (clean text))));
            bookings := bookings s |}.
Proof.
  intros Hlt Hgen Htruthy Hshape. simpl.
  destruct (Z.ltb_spec (tool_call_count s) limit); [| lia].
  unfold iteration. rewrite Hgen, Htruthy. unfold handle_function_call.
  destruct (extract (clean text)) as [| b | n | str | items | entries];
    try reflexivity.
  now contradiction (Hshape entries).
Qed.

Lemma lookup_tool_registered entries n f :
  lookup_tool entries n = Some f ->
  existsb (fun entry => String.eqb (fst entry) n) entries = true.
Proof.
  induction entries as [| [k g] entries IH]; simpl; [discriminate |].
  destruct (String.eqb k n); [reflexivity | exact IH].
Qed.

Lemma dict_get_set entries key v default :
  dict_get (dict_set entries key v) key default = v.
Proof.
  induction entries as [| [k old] entries IH]; simpl.
  - now rewrite String.eqb_refl.
  - destruct (String.eqb k key) eqn:Hk; simpl; rewrite Hk; [reflexivity | exact IH].
Qed.

Lemma dict_get_set_other entries key v other default :
  other <> key ->
  dict_get (dict_set entries key v) other default = dict_get entries other default.
Proof.
  intros Hne. induction entries as [| [k old] entries IH]; simpl.
  - apply String.eqb_neq in Hne. rewrite String.eqb_sym in Hne. now rewrite Hne.
  - destruct (String.eqb k key) eqn:Hk; simpl.
    + apply String.eqb_eq in Hk. subst k.
      apply String.eqb_neq in Hne. rewrite String.eqb_sym in Hne. now rewrite Hne.
    + destruct (String.eqb k other); [reflexivity | exact IH].
Qed.

(** X21. What the tool is called with: for a directive that names a
    registered tool and whose parameters hold a string under "time", the
    pass calls the tool once with the parameters in which "time" is
    replaced by its rounded form, every other key keeping its value, or
    with the parameters as they are when the time does not round; the
    model's text and the outcome are appended and the call is counted. *)
Theorem tool_called_with_rounded_time
  (s : session) (text n t : string) (entries parameters : list (string * json))
  (tool_function : tool) :
  generate_content (format_history_for_gemma (llm_messages s) AGENT_INITIAL_INSTRUCTIONS)
  = Returned text ->
  extract (clean text) = JDict entries ->
  dict_get entries "name" JNull = JStr n ->
  lookup_tool tool_map n = Some tool_function ->
  dict_get entries "parameters" (JDict []) = JDict parameters ->
  dict_has parameters "time" = true ->
  dict_get parameters "time" JNull = JStr t ->
  let passed :=
    match round_time_to_nearest_hour t with
    | Some rounded_time => dict_set parameters "time" (JStr rounded_time)
    | None => parameters
    end in
  iteration AGENT_INITIAL_INSTRUCTIONS generate_content clean extract error_text
    tool_map s
  = (Continue,
     {| llm_messages :=
          (llm_messages s
           ++ [assistant (clean text);
               user (match fst (tool_function passed (bookings s)) with
                     | Returned tool_result => "Function result: " ++ tool_result
                     | Raised e => "Error calling function: " ++ e
                     end)])%list;
        tool_call_count := tool_call_count s + 1;
        final_assistant_response := final_assistant_response s;
        bookings := snd (tool_function passed (bookings s)) |})
  /\ (forall rounded_time,
        round_time_to_nearest_hour t = Some rounded_time ->
        dict_get passed "time" JNull = JStr rounded_time)
  /\ (forall key default,
        key <> "time" -> dict_get passed key default = dict_get parameters key default).
Proof.
  intros Hgen Hfc Hname Hf Hparams Hhas Htime. cbv zeta.
  split; [| split].
  - unfold iteration. rewrite Hgen, Hfc.
    assert (Htruthy : truthy (JDict entries) = true).
    { destruct entries; [discriminate Hname | reflexivity]. }
    rewrite Htruthy. unfold handle_function_call. rewrite Hname, Hparams.
    unfold in_tool_map. rewrite (lookup_tool_registered _ _ _ Hf).
    unfold normalize_time. rewrite Hhas, Htime. cbn [round_time_param].
    destruct (round_time_to_nearest_hour t) as [rounded |] eqn:Ht.
    + destruct (round_time_result _ _ Ht) as (h & Hh & ->).
      assert (Hne : String.eqb (on_the_hour h) "" = false).
      { apply String.eqb_neq. intros Hempty.
        destruct (on_the_hour_canonical h Hh) as [Hlen _].
        rewrite Hempty in Hlen. discriminate Hlen. }
      rewrite Hne. unfold call_tool. rewrite Hf.
      destruct (tool_function _ (bookings s)) as [[tool_result | e] db]; reflexivity.
    + unfold call_tool. rewrite Hf.
      destruct (tool_function parameters (bookings s)) as [[tool_result | e] db];
        reflexivity.
  - intros rounded ->. apply dict_get_set.
  - intros key default Hkey.
    destruct (round_time_to_nearest_hour t); [| reflexivity].
    now apply dict_get_set_other.
Qed.

End AnyService.

Lemma no_answer_exactly_when_exhausted_witness :
  exists s',
    handle_user_input "" (fun _ => Returned "call") (fun text => text)
      (fun _ => JDict [("name", JStr "noop"); ("parameters", JDict [])])
      (fun _ => "error") noop_tool_map "hello" [] [] = Some s'
    /\ (final_assistant_response s' = None <-> tool_call_count s' = 4).
Proof.
  eexists. split; [reflexivity |].
  apply (no_answer_exactly_when_exhausted "" (fun _ => Returned "call")
           (fun text => text)
           (fun _ => JDict [("name", JStr "noop"); ("parameters", JDict [])])
           (fun _ => "error") noop_tool_map "hello" [] []).
  reflexivity.
Defined.

Lemma service_failure_ends_the_turn_witness :
  let s := {| llm_messages := [user "a table, please"]; tool_call_count := 1;
              final_assistant_response := None; bookings := [] |} in
  sequential_loop "" (fun _ => Raised "503 unavailable") (fun text => text)
    (fun _ => JNull) (fun _ => "error") noop_tool_map 1 MAX_SEQUENTIAL_CALLS s
  = Some {| llm_messages := [user "a table, please"];
            tool_call_count := 1;
            final_assistant_response :=
              Some ("Error generating response: " ++ "503 unavailable");
            bookings := [] |}.
Proof.
  apply (service_failure_ends_the_turn "" (fun _ => Raised "503 unavailable")
           (fun text => text) (fun _ => JNull) (fun _ => "error") noop_tool_map 0
           MAX_SEQUENTIAL_CALLS
           {| llm_messages := [user "a table, please"]; tool_call_count := 1;
              final_assistant_response := None; bookings := [] |}
           "503 unavailable").
  - unfold MAX_SEQUENTIAL_CALLS. simpl. lia.
  - reflexivity.
Defined.

Lemma directive_not_a_mapping_ends_the_turn_witness :
  let s := {| llm_messages := [user "a table, please"]; tool_call_count := 0;
              final_assistant_response := None; bookings := [] |} in
  sequential_loop "" (fun _ => Returned "reply") (fun text => text)
    (fun _ => JStr "find_restaurant") (fun _ => "no attribute get") noop_tool_map 1
    MAX_SEQUENTIAL_CALLS s
  = Some {| llm_messages := [user "a table, please"];
            tool_call_count := 0;
            final_assistant_response :=
              Some ("Error generating response: " ++ "no attribute get");
            bookings := [] |}.
Proof.
  apply (directive_not_a_mapping_ends_the_turn "" (fun _ => Returned "reply")
           (fun text => text) (fun _ => JStr "find_restaurant")
           (fun _ => "no attribute get") noop_tool_map 0 MAX_SEQUENTIAL_CALLS
           {| llm_messages := [user "a table, please"]; tool_call_count := 0;
              final_assistant_response := None; bookings := [] |}
           "reply").
  - unfold MAX_SEQUENTIAL_CALLS. simpl. lia.
  - reflexivity.
  - reflexivity.
  - discriminate.
Defined.

Lemma tool_called_with_rounded_time_witness :
  let parameters := [("restaurant_id", JStr "r1"); ("time", JStr "19:40")] in
  let directive :=
    JDict [("name", JStr "noop"); ("parameters", JDict parameters)] in
  let s := {| llm_messages := [user "at 19:40"]; tool_call_count := 0;
              final_assistant_response := None; bookings := [] |} in
  let passed :=
    match round_time_to_nearest_hour "19:40" with
    | Some rounded_time => dict_set parameters "time" (JStr rounded_time)
    | None => parameters
    end in
  passed = [("restaurant_id", JStr "r1"); ("time", JStr "20:00")]
  /\ forall key default,
       key <> "time" -> dict_get passed key default = dict_get parameters key default.
Proof.
  cbv zeta. split; [reflexivity |].
  apply (tool_called_with_rounded_time "" (fun _ => Returned "reply") (fun text => text)
           (fun _ => JDict [("name", JStr "noop");
                              ("parameters",
                               JDict [("restaurant_id", JStr "r1");
                                      ("time", JStr "19:40")])])
           (fun _ => "error") noop_tool_map
           {| llm_messages := [user "at 19:40"]; tool_call_count := 0;
              final_assistant_response := None; bookings := [] |}
           "reply" "noop" "19:40"
           [("name", JStr "noop");
            ("parameters",
             JDict [("restaurant_id", JStr "r1"); ("time", JStr "19:40")])]
           [("restaurant_id", JStr "r1"); ("time", JStr "19:40")] noop);
    reflexivity.
Defined.

(** ** Strings *)

Lemma has_char_app c a b : has_char c (a ++ b) = has_char c a || has_char c b.
Proof.
  induction a as [| x a IH]; simpl; [reflexivity |].
  now rewrite IH, orb_assoc.
Qed.

Lemma prefix_app k a b : prefix k a = true -> prefix k (a ++ b) = true.
Proof.
  revert a. induction k as [| x k IH]; intros a H.
  - destruct a, b; reflexivity.
  - destruct a as [| y a]; [discriminate |]. simpl in *.
    destruct (ascii_dec x y); [now apply IH | discriminate].
Qed.

Lemma contains_app_r k a b : PyStr.contains k a = true -> PyStr.contains k (a ++ b) = true.
Proof.
  induction a as [| x a IH]; cbn [PyStr.contains String.append].
  - rewrite orb_false_r. intros H.
    assert (Hk : PyStr.contains k ("" ++ b) = true).
    { destruct b as [| y b]; cbn [PyStr.contains String.append].
      - now rewrite H.
      - pose proof (prefix_app k "" (String y b) H) as Hp.
        cbn [String.append] in Hp. now rewrite Hp. }
    exact Hk.
  - intros H. apply orb_prop in H as [H | H].
    + change (String x (a ++ b)) with (String x a ++ b).
      now rewrite (prefix_app _ _ b H).
    + now rewrite (IH H), orb_true_r.
Qed.

Lemma contains_app_l k a b : PyStr.contains k b = true -> PyStr.contains k (a ++ b) = true.
Proof.
  intros H. induction a as [| x a IH]; cbn [PyStr.contains String.append]; [exact H |].
  fold (PyStr.contains k (a ++ b)). now rewrite IH, orb_true_r.
Qed.

Lemma from_first_none c s : has_char c s = false -> from_first c s = None.
Proof.
  induction s as [| a s IH]; simpl; [reflexivity |].
  intros H. apply orb_false_elim in H as [Ha Hs]. rewrite Ha. now apply IH.
Qed.

Lemma from_first_app c pre rest :
  has_char c pre = false ->
  from_first c (pre ++ String c rest) = Some (String c rest).
Proof.
  induction pre as [| a pre IH]; simpl.
  - now rewrite Ascii.eqb_refl.
  - intros H. apply orb_false_elim in H as [Ha Hpre]. rewrite Ha. now apply IH.
Qed.

Lemma from_first_split c s tail :
  from_first c s = Some tail ->
  exists pre rest, s = pre ++ tail /\ tail = String c rest.
Proof.
  induction s as [| a s IH]; simpl; [discriminate |].
  destruct (Ascii.eqb_spec a c) as [-> | Hne].
  - intros [= <-]. exists "", s. split; reflexivity.
  - intros H. destruct (IH H) as (pre & rest & -> & ->).
    exists (String a pre), rest. split; reflexivity.
Qed.

Lemma upto_last_none c s : has_char c s = false -> upto_last c s = None.
Proof.
  induction s as [| a s IH]; simpl; [reflexivity |].
  intros H. apply orb_false_elim in H as [Ha Hs]. now rewrite (IH Hs), Ha.
Qed.

Lemma upto_last_app c inner post :
  has_char c post = false ->
  upto_last c (inner ++ String c post) = Some (inner ++ String c "").
Proof.
  intros Hpost. induction inner as [| a inner IH]; simpl.
  - now rewrite (upto_last_none c post Hpost), Ascii.eqb_refl.
  - now rewrite IH.
Qed.

Lemma upto_last_split c s kept :
  upto_last c s = Some kept ->
  exists init post, kept = init ++ String c "" /\ s = kept ++ post.
Proof.
  revert kept. induction s as [| a s IH]; simpl; [discriminate |].
  intros kept. destruct (upto_last c s) as [k |].
  - intros [= <-]. destruct (IH k eq_refl) as (init & post & -> & ->).
    exists (String a init), post. split; reflexivity.
  - destruct (Ascii.eqb_spec a c) as [-> | Hne]; [| discriminate].
    intros [= <-]. exists "", s. split; reflexivity.
Qed.

(** ** The directive extractor *)

Section ExtractorProperties.

Variable json_loads : string -> option json.

(** The match runs from the first opening brace to the last closing
    brace, with the key between them. *)
Lemma search_function_call_inv text json_str :
  search_function_call text = Some json_str ->
  exists pre between post,
    text = pre ++ json_str ++ post
    /\ json_str = String "{" (between ++ String "}" "")
    /\ PyStr.contains function_call_key between = true.
Proof.
  unfold search_function_call.
  destruct (from_first "{" text) as [tail |] eqn:Hfirst; [| discriminate].
  destruct (from_first_split _ _ _ Hfirst) as (pre & inner & -> & ->).
  destruct (upto_last "}" inner) as [closed |] eqn:Hlast; [| discriminate].
  destruct (upto_last_split _ _ _ Hlast) as (init & post & -> & ->).
  rewrite split_last_app.
  destruct (PyStr.contains function_call_key init) eqn:Hkey; [| discriminate].
  intros [= <-]. exists pre, init, post.
  split; [| split; [reflexivity | exact Hkey]].
  cbn [String.append]. now rewrite string_app_assoc.
Qed.

Lemma search_function_call_span pre inner post :
  has_char "{" pre = false ->
  has_char "}" post = false ->
  search_function_call (pre ++ String "{" (inner ++ String "}" post))
  = if PyStr.contains function_call_key inner
    then Some (String "{" (inner ++ String "}" ""))
    else None.
Proof.
  intros Hpre Hpost. unfold search_function_call.
  rewrite (from_first_app "{" pre _ Hpre).
  rewrite (upto_last_app "}" inner post Hpost), split_last_app.
  reflexivity.
Qed.

(** X22. Without an opening brace, without a closing brace, or without
    the key "function_call" between double quotes, a text holds no
    directive: [extract_function_call] returns [None]. *)
Theorem extract_needs_braces_and_key (text : string) :
  has_char "{" text = false
  \/ has_char "}" text = false
  \/ PyStr.contains function_call_key text = false ->
  extract_function_call json_loads text = JNull.
Proof.
  intros H. unfold extract_function_call.
  destruct (search_function_call text) as [json_str |] eqn:Hsearch; [| reflexivity].
  exfalso.
  destruct (search_function_call_inv _ _ Hsearch) as (pre & between & post & -> & -> & Hkey).
  destruct H as [H | [H | H]].
  - rewrite has_char_app in H. cbn [String.append has_char] in H.
    rewrite Ascii.eqb_refl, orb_true_r in H. discriminate H.
  - rewrite has_char_app in H. cbn [String.append has_char] in H.
    rewrite !has_char_app in H. cbn [has_char] in H.
    rewrite Ascii.eqb_refl in H. cbn [orb] in H.
    rewrite !orb_true_r in H. discriminate H.
  - rewrite contains_app_l in H; [discriminate H |].
    apply contains_app_r. cbn [PyStr.contains].
    rewrite (contains_app_r _ _ _ Hkey). apply orb_true_r.
Qed.

(** X23. The extractor is blind to what stands around the directive: for
    a text made of words without an opening brace, an object between
    braces, and words without a closing brace, the string handed to
    [json.loads] is the object, from the first opening brace to the last
    closing brace, whatever braces it holds inside; the result is the
    value of the key "function_call" of the decoded dictionary, and [None]
    when the key is not in the object, when the object is no JSON, or when
    it decodes to something else than a dictionary. *)
Theorem extract_ignores_surrounding_text (pre inner post : string) :
  has_char "{" pre = false ->
  has_char "}" post = false ->
  extract_function_call json_loads (pre ++ String "{" (inner ++ String "}" post))
  = if PyStr.contains function_call_key inner then
      match json_loads (String "{" (inner ++ String "}" "")) with
      | Some (JDict function_call_data) =>
          dict_get function_call_data "function_call" JNull
      | _ => JNull
      end
    else JNull.
Proof.
  intros Hpre Hpost. unfold extract_function_call.
  rewrite (search_function_call_span pre inner post Hpre Hpost).
  destruct (PyStr.contains function_call_key inner); [| reflexivity].
  destruct (json_loads _) as [[| | | | |] |]; reflexivity.
Qed.

End ExtractorProperties.

Lemma extract_needs_braces_and_key_witness :
  extract_function_call (fun _ => Some (JDict [("function_call", JBool true)]))
    "I found two places for you."
  = JNull.
Proof.
  apply (extract_needs_braces_and_key
           (fun _ => Some (JDict [("function_call", JBool true)]))
           "I found two places for you.").
  left. reflexivity.
Defined.

Lemma extract_ignores_surrounding_text_witness :
  let inner := String quote ("function_call" ++ String quote ": {}") in
  let loads := fun _ : string => Some (JDict [("function_call", JDict [])]) in
  extract_function_call loads ("Sure. " ++ String "{" (inner ++ String "}" " Done."))
  = if PyStr.contains function_call_key inner then
      match loads (String "{" (inner ++ String "}" "")) with
      | Some (JDict function_call_data) =>
          dict_get function_call_data "function_call" JNull
      | _ => JNull
      end
    else JNull.
Proof.
  apply (extract_ignores_surrounding_text
           (fun _ : string => Some (JDict [("function_call", JDict [])]))
           "Sure. " (String quote ("function_call" ++ String quote ": {}")) " Done.");
    reflexivity.
Defined.

(** ** Cleaning the reply *)

Lemma prefix_head c k s :
  prefix (String c k) s = true -> exists rest, s = String c rest.
Proof.
  destruct s as [| a s]; simpl; [discriminate |].
  destruct (ascii_dec c a) as [-> |]; [eauto | discriminate].
Qed.

Lemma prefix_needs_head c k s :
  has_char c s = false -> prefix (String c k) s = false.
Proof.
  intros Hs. destruct (prefix (String c k) s) eqn:Hp; [| reflexivity].
  destruct (prefix_head _ _ _ Hp) as [rest ->].
  simpl in Hs. rewrite Ascii.eqb_refl in Hs. discriminate Hs.
Qed.

Lemma prefix_other_head c k a s :
  Ascii.eqb a c = false -> prefix (String c k) (String a s) = false.
Proof.
  intros H. destruct (prefix (String c k) (String a s)) eqn:Hp; [| reflexivity].
  destruct (prefix_head _ _ _ Hp) as [rest [= ->]].
  rewrite Ascii.eqb_refl in H. discriminate H.
Qed.

Lemma has_char_lstrip c s : has_char c (PyStr.lstrip s) = true -> has_char c s = true.
Proof.
  induction s as [| a s IH]; simpl; [auto |].
  destruct (PyStr.is_space a); [| auto].
  intros H. now rewrite (IH H), orb_true_r.
Qed.

Lemma has_char_rstrip c s : has_char c (PyStr.rstrip s) = true -> has_char c s = true.
Proof.
  induction s as [| a s IH]; simpl; [auto |].
  destruct (PyStr.rstrip s) as [| b r].
  - destruct (PyStr.is_space a); simpl; [discriminate |].
    rewrite orb_false_r. intros ->. reflexivity.
  - simpl in *. intros H. apply orb_prop in H as [-> | H]; [reflexivity |].
    now rewrite (IH H), orb_true_r.
Qed.

Lemma has_char_drop c n s : has_char c (drop n s) = true -> has_char c s = true.
Proof.
  revert s. induction n as [| n IH]; intros s; [auto |].
  destruct s as [| a s]; simpl; [auto |].
  intros H. now rewrite (IH _ H), orb_true_r.
Qed.

Lemma has_char_split_last c s init last :
  split_last s = Some (init, last) ->
  has_char c init = true -> has_char c s = true.
Proof.
  revert init. induction s as [| a s IH]; simpl; [discriminate |].
  intros init. destruct (split_last s) as [[i l] |].
  - intros [= <- <-]. simpl. intros H. apply orb_prop in H as [-> | H]; [reflexivity |].
    now rewrite (IH _ eq_refl H), orb_true_r.
  - intros [= <- <-]. discriminate.
Qed.

(** The first substitution. *)
Lemma sub_end_of_turn_unfold text :
  sub_end_of_turn text
  = if prefix "<end_of_turn>" text && all_space (drop 13 text) then EmptyString
    else
      match text with
      | String c rest => String c (sub_end_of_turn rest)
      | EmptyString => EmptyString
      end.
Proof. destruct text; reflexivity. Qed.

Lemma sub_end_of_turn_plain text :
  has_char "<" text = false -> sub_end_of_turn text = text.
Proof.
  induction text as [| a text IH]; [reflexivity |].
  intros H. rewrite sub_end_of_turn_unfold.
  rewrite (prefix_needs_head "<" _ _ H). cbn [andb].
  simpl in H. apply orb_false_elim in H as [_ H]. now rewrite IH.
Qed.

Lemma sub_end_of_turn_final text ws :
  has_char "<" text = false -> all_space ws = true ->
  sub_end_of_turn (text ++ "<end_of_turn>" ++ ws) = text.
Proof.
  intros Htext Hws. induction text as [| a text IH].
  - rewrite sub_end_of_turn_unfold.
    assert (Hp : prefix "<end_of_turn>" ("" ++ "<end_of_turn>" ++ ws) = true).
    { apply (prefix_app "<end_of_turn>" "<end_of_turn>" ws). reflexivity. }
    assert (Hd : drop 13 ("" ++ "<end_of_turn>" ++ ws) = ws) by reflexivity.
    rewrite Hp, Hd, Hws. reflexivity.
  - change (String a text ++ "<end_of_turn>" ++ ws)
      with (String a (text ++ "<end_of_turn>" ++ ws)).
    rewrite sub_end_of_turn_unfold.
    simpl in Htext. apply orb_false_elim in Htext as [Ha Htext].
    rewrite (prefix_other_head "<" _ a _ Ha). cbn [andb].
    now rewrite (IH Htext).
Qed.

Lemma has_char_sub_end_of_turn c text :
  has_char c (sub_end_of_turn text) = true -> has_char c text = true.
Proof.
  induction text as [| a text IH]; [auto |].
  rewrite sub_end_of_turn_unfold.
  destruct (prefix "<end_of_turn>" (String a text) && all_space (drop 13 (String a text)));
    [discriminate |].
  simpl. intros H. apply orb_prop in H as [-> | H]; [reflexivity |].
  now rewrite (IH H), orb_true_r.
Qed.

(** The second and the third substitution. *)
Lemma sub_mark_plain k text :
  has_char "<" text = false -> sub_mark (String "<" k) text = text.
Proof.
  unfold sub_mark. generalize (S (String.length text)) as fuel.
  intros fuel. revert text. induction fuel as [| fuel IH]; intros text H; [reflexivity |].
  cbn [sub_mark_from]. rewrite (prefix_needs_head "<" k text H).
  destruct text as [| a text]; [reflexivity |].
  simpl in H. apply orb_false_elim in H as [_ H]. now rewrite IH.
Qed.

Lemma has_char_sub_mark c mark text :
  has_char c (sub_mark mark text) = true -> has_char c text = true.
Proof.
  unfold sub_mark. generalize (S (String.length text)) as fuel.
  intros fuel. revert text. induction fuel as [| fuel IH]; intros text; [auto |].
  cbn [sub_mark_from]. destruct (prefix mark text).
  - intros H. apply IH in H. apply has_char_lstrip in H. now apply has_char_drop in H.
  - destruct text as [| a text]; [auto |].
    simpl. intros H. apply orb_prop in H as [-> | H]; [reflexivity |].
    now rewrite (IH _ H), orb_true_r.
Qed.

(** The fourth substitution. *)
Lemma all_space_rstrip ws : all_space ws = true -> PyStr.rstrip ws = "".
Proof.
  induction ws as [| a ws IH]; simpl; [reflexivity |].
  intros H. apply andb_prop in H as [Ha Hws]. now rewrite (IH Hws), Ha.
Qed.

Lemma lstrip_spaces ws c rest :
  all_space ws = true -> PyStr.is_space c = false ->
  PyStr.lstrip (ws ++ String c rest) = String c rest.
Proof.
  intros Hws Hc. induction ws as [| a ws IH]; simpl.
  - now rewrite Hc.
  - simpl in Hws. apply andb_prop in Hws as [Ha Hws]. rewrite Ha. now apply IH.
Qed.

Lemma rstrip_spaces s c ws :
  PyStr.is_space c = false -> all_space ws = true ->
  PyStr.rstrip (s ++ String c ws) = s ++ String c "".
Proof.
  intros Hc Hws. induction s as [| a s IH]; simpl.
  - now rewrite (all_space_rstrip ws Hws), Hc.
  - rewrite IH. destruct s; reflexivity.
Qed.

Lemma unwrap_parentheses_wrapped ws1 inner ws2 :
  all_space ws1 = true -> all_space ws2 = true -> has_newline inner = false ->
  unwrap_parentheses (ws1 ++ String "(" (inner ++ String ")" ws2)) = inner.
Proof.
  intros H1 H2 Hline. unfold unwrap_parentheses.
  rewrite (lstrip_spaces ws1 "(" _ H1) by reflexivity.
  rewrite Ascii.eqb_refl.
  rewrite (rstrip_spaces inner ")" ws2) by (reflexivity || assumption).
  rewrite split_last_app, Ascii.eqb_refl, Hline. reflexivity.
Qed.

Lemma unwrap_parentheses_not_wrapped text :
  (forall rest, PyStr.lstrip text <> String "(" rest) ->
  unwrap_parentheses text = text.
Proof.
  intros H. unfold unwrap_parentheses.
  destruct (PyStr.lstrip text) as [| c body] eqn:Hl; [reflexivity |].
  destruct (Ascii.eqb_spec c "(") as [-> | Hne]; [| reflexivity].
  now contradiction (H body).
Qed.

Lemma has_char_unwrap_parentheses c text :
  has_char c (unwrap_parentheses text) = true -> has_char c text = true.
Proof.
  unfold unwrap_parentheses.
  destruct (PyStr.lstrip text) as [| a body] eqn:Hl; [auto |].
  destruct (Ascii.eqb a "("); [| auto].
  destruct (split_last (PyStr.rstrip body)) as [[inner last] |] eqn:Hsplit; [| auto].
  destruct (Ascii.eqb last ")" && negb (has_newline inner)); [| auto].
  intros H. apply has_char_lstrip. rewrite Hl. simpl.
  apply (has_char_split_last c _ _ _ Hsplit) in H.
  apply has_char_rstrip in H. now rewrite H, orb_true_r.
Qed.

(** No white space at either end of a stripped string. *)
Lemma lstrip_head s c rest :
  PyStr.lstrip s = String c rest -> PyStr.is_space c = false.
Proof.
  induction s as [| a s IH]; simpl; [discriminate |].
  destruct (PyStr.is_space a) eqn:Ha; [exact IH |].
  intros [= <- <-]. exact Ha.
Qed.

Lemma rstrip_head s c rest :
  PyStr.rstrip s = String c rest -> exists rest', s = String c rest'.
Proof.
  destruct s as [| a s]; simpl; [discriminate |].
  destruct (PyStr.rstrip s).
  - destruct (PyStr.is_space a); [discriminate |]. intros [= <- <-]. eauto.
  - intros [= <- <-]. eauto.
Qed.

Lemma rstrip_last s init last :
  split_last (PyStr.rstrip s) = Some (init, last) -> PyStr.is_space last = false.
Proof.
  revert init. induction s as [| a s IH]; simpl; [discriminate |].
  intros init. destruct (PyStr.rstrip s) as [| b r] eqn:Hr.
  - destruct (PyStr.is_space a) eqn:Ha; simpl; [discriminate |].
    intros [= <- <-]. exact Ha.
  - remember (String b r) as t eqn:Ht. simpl.
    destruct (split_last t) as [[i l] |] eqn:Hsplit.
    + intros [= <- <-]. now apply (IH i).
    + subst t. simpl in Hsplit. destruct (split_last r) as [[? ?] |]; discriminate.
Qed.

Lemma has_char_strip c s : has_char c (PyStr.strip s) = true -> has_char c s = true.
Proof.
  unfold PyStr.strip. intros H. now apply has_char_lstrip, has_char_rstrip.
Qed.

Lemma all_space_no_char c ws :
  PyStr.is_space c = false -> all_space ws = true -> has_char c ws = false.
Proof.
  intros Hc. induction ws as [| a ws IH]; simpl; [reflexivity |].
  intros H. apply andb_prop in H as [Ha Hws]. rewrite (IH Hws), orb_false_r.
  destruct (Ascii.eqb_spec a c) as [-> |]; [congruence | reflexivity].
Qed.

(** X24. The cleaned reply has no white space at either end: its first
    and its last character, when it has any, are no white space. *)
Theorem clean_response_text_is_stripped (text : string) :
  (forall c rest,
      clean_response_text text = String c rest -> PyStr.is_space c = false)
  /\ (forall init last,
        split_last (clean_response_text text) = Some (init, last) ->
        PyStr.is_space last = false).
Proof.
  unfold clean_response_text, PyStr.strip. split.
  - intros c rest H. apply rstrip_head in H as [rest' H].
    now apply lstrip_head in H.
  - intros init last H. now apply rstrip_last in H.
Qed.

Lemma clean_response_text_is_stripped_witness :
  clean_response_text "  Hello! <end_of_turn> " = "Hello!"
  /\ PyStr.is_space "H" = false.
Proof.
  split; [reflexivity |].
  apply (proj1 (clean_response_text_is_stripped "  Hello! <end_of_turn> ")
           "H"%char "ello!").
  reflexivity.
Defined.

(** X25. A plain reply comes through untouched but for the white space
    around it: a text without the character < whose first character that
    is no white space is not an opening parenthesis is cleaned to the same
    text, stripped. *)
Theorem clean_response_text_plain (text : string) :
  has_char "<" text = false ->
  (forall rest, PyStr.lstrip text <> String "(" rest) ->
  clean_response_text text = PyStr.strip text.
Proof.
  intros Hplain Hparen. unfold clean_response_text.
  rewrite (sub_end_of_turn_plain text Hplain).
  rewrite !(sub_mark_plain _ text Hplain).
  now rewrite (unwrap_parentheses_not_wrapped text Hparen).
Qed.

Lemma clean_response_text_plain_witness :
  clean_response_text " I found Bistro (downtown). " = PyStr.strip " I found Bistro (downtown). ".
Proof.
  apply (clean_response_text_plain " I found Bistro (downtown). ");
    [reflexivity | discriminate].
Defined.

(** X26. The end-of-turn mark at the end of a reply is cut off with the
    white space that follows it: a text without the character <, followed
    by the mark and white space, is cleaned to what the text alone is
    cleaned to. *)
Theorem clean_response_text_drops_end_of_turn (text ws : string) :
  has_char "<" text = false ->
  all_space ws = true ->
  clean_response_text (text ++ "<end_of_turn>" ++ ws) = clean_response_text text.
Proof.
  intros Hplain Hws. unfold clean_response_text.
  now rewrite (sub_end_of_turn_final text ws Hplain Hws),
    (sub_end_of_turn_plain text Hplain).
Qed.

Lemma clean_response_text_drops_end_of_turn_witness :
  clean_response_text ("Table for two?" ++ "<end_of_turn>" ++ nl)
  = clean_response_text "Table for two?".
Proof.
  apply (clean_response_text_drops_end_of_turn "Table for two?" nl); reflexivity.
Defined.

(** X27. A reply wrapped in parentheses loses them: white space, an
    opening parenthesis, a text without the character < and without line
    feed, a closing parenthesis and white space are cleaned to the text
    between the parentheses, stripped. *)
Theorem clean_response_text_unwraps_parentheses (ws1 inner ws2 : string) :
  all_space ws1 = true ->
  all_space ws2 = true ->
  has_char "<" inner = false ->
  has_newline inner = false ->
  clean_response_text (ws1 ++ String "(" (inner ++ String ")" ws2))
  = PyStr.strip inner.
Proof.
  intros H1 H2 Hplain Hline. unfold clean_response_text.
  assert (Hwhole : has_char "<" (ws1 ++ String "(" (inner ++ String ")" ws2)) = false).
  { rewrite has_char_app. cbn [has_char]. rewrite has_char_app. cbn [has_char].
    rewrite (all_space_no_char "<" ws1), (all_space_no_char "<" ws2), Hplain
      by (reflexivity || assumption).
    reflexivity. }
  rewrite (sub_end_of_turn_plain _ Hwhole).
  rewrite !(sub_mark_plain _ _ Hwhole).
  now rewrite (unwrap_parentheses_wrapped ws1 inner ws2 H1 H2 Hline).
Qed.

Lemma clean_response_text_unwraps_parentheses_witness :
  clean_response_text (" " ++ String "(" ("Which day? " ++ String ")" nl))
  = PyStr.strip "Which day? ".
Proof.
  apply (clean_response_text_unwraps_parentheses " " "Which day? " nl); reflexivity.
Defined.

Lemma has_char_clean c text :
  has_char c (clean_response_text text) = true -> has_char c text = true.
Proof.
  unfold clean_response_text. intros H.
  apply has_char_strip, has_char_unwrap_parentheses in H.
  apply has_char_sub_mark, has_char_sub_mark in H.
  now apply has_char_sub_end_of_turn in H.
Qed.

(** X28. Cleaning only takes characters away: every character of the
    cleaned reply occurs in the reply. *)
Theorem clean_response_text_adds_nothing (c : ascii) (text : string) :
  has_char c (clean_response_text text) = true -> has_char c text = true.
Proof. exact (has_char_clean c text). Qed.

Lemma clean_response_text_adds_nothing_witness :
  has_char "?" "(Which day?)" = true.
Proof.
  apply (clean_response_text_adds_nothing "?"%char "(Which day?)"). reflexivity.
Defined.

(** ** The loop with the cleaner and the extractor of the source *)

Lemma clean_keeps_brace_free text :
  has_char "{" text = false -> has_char "{" (clean_response_text text) = false.
Proof.
  intros H. destruct (has_char "{" (clean_response_text text)) eqn:Hc; [| reflexivity].
  apply has_char_clean in Hc. congruence.
Qed.

Section SourceCleanerAndExtractor.

Variable AGENT_INITIAL_INSTRUCTIONS : string.
Variable generate_content : string -> outcome string.
Variable json_loads : string -> option json.
Variable error_text : runtime_error -> string.
Variable tool_map : list (string * tool).

(** The pass on a reply in which no directive is found. *)
Lemma plain_answer_pass fuel limit s text :
  tool_call_count s < limit ->
  generate_content (format_history_for_gemma (llm_messages s) AGENT_INITIAL_INSTRUCTIONS)
  = Returned text ->
  extract_function_call json_loads (clean_response_text text) = JNull ->
  sequential_loop AGENT_INITIAL_INSTRUCTIONS generate_content clean_response_text
    (extract_function_call json_loads) error_text tool_map (S fuel) limit s
  = Some {| llm_messages :=
              (llm_messages s ++ [assistant (clean_response_text text)])%list;
            tool_call_count := tool_call_count s;
            final_assistant_response := Some (clean_response_text text);
            bookings := bookings s |}.
Proof.
  intros Hlt Hgen Hnone. simpl.
  destruct (Z.ltb_spec (tool_call_count s) limit); [| lia].
  unfold iteration. rewrite Hgen, Hnone. reflexivity.
Qed.

(** X29. A reply without an opening brace is the answer: the loop ends on
    that pass, shows the cleaned reply to the user and appends it to the
    history as one assistant turn; no tool is called and the bookings are
    left as they were. *)
Theorem reply_without_brace_is_the_answer
  (fuel : nat) (limit : Z) (s : session) (text : string) :
  tool_call_count s < limit ->
  generate_content (format_history_for_gemma (llm_messages s) AGENT_INITIAL_INSTRUCTIONS)
  = Returned text ->
  has_char "{" text = false ->
  sequential_loop AGENT_INITIAL_INSTRUCTIONS generate_content clean_response_text
    (extract_function_call json_loads) error_text tool_map (S fuel) limit s
  = Some {| llm_messages :=
              (llm_messages s ++ [assistant (clean_response_text text)])%list;
            tool_call_count := tool_call_count s;
            final_assistant_response := Some (clean_response_text text);
            bookings := bookings s |}.
Proof.
  intros Hlt Hgen Hbrace. apply plain_answer_pass; try assumption.
  unfold extract_function_call, search_function_call.
  now rewrite (from_first_none "{" _ (clean_keeps_brace_free text Hbrace)).
Qed.

(** X30. A reply whose braces do not hold valid JSON is the answer too:
    when [json.loads] rejects the text found between the first opening and
    the last closing brace of the cleaned reply, the loop ends on that
    pass with the cleaned reply as the answer, appended to the history as
    one assistant turn. *)
Theorem reply_with_invalid_json_is_the_answer
  (fuel : nat) (limit : Z) (s : session) (text : string) :
  tool_call_count s < limit ->
  generate_content (format_history_for_gemma (llm_messages s) AGENT_INITIAL_INSTRUCTIONS)
  = Returned text ->
  (forall json_str,
      search_function_call (clean_response_text text) = Some json_str ->
      json_loads json_str = None) ->
  sequential_loop AGENT_INITIAL_INSTRUCTIONS generate_content clean_response_text
    (extract_function_call json_loads) error_text tool_map (S fuel) limit s
  = Some {| llm_messages :=
              (llm_messages s ++ [assistant (clean_response_text text)])%list;
            tool_call_count := tool_call_count s;
            final_assistant_response := Some (clean_response_text text);
            bookings := bookings s |}.
Proof.
  intros Hlt Hgen Hjson. apply plain_answer_pass; try assumption.
  unfold extract_function_call.
  destruct (search_function_call (clean_response_text text)) as [json_str |] eqn:Hsearch;
    [| reflexivity].
  now rewrite (Hjson json_str eq_refl).
Qed.

End SourceCleanerAndExtractor.

Lemma reply_without_brace_is_the_answer_witness :
  let s := {| llm_messages := [user "hello"]; tool_call_count := 0;
              final_assistant_response := None; bookings := [] |} in
  sequential_loop "" (fun _ => Returned " Hi! How can I help?<end_of_turn>")
    clean_response_text (extract_function_call (fun _ => None)) (fun _ => "error")
    noop_tool_map 1 MAX_SEQUENTIAL_CALLS s
  = Some {| llm_messages :=
              [user "hello";
               assistant (clean_response_text " Hi! How can I help?<end_of_turn>")];
            tool_call_count := 0;
            final_assistant_response :=
              Some (clean_response_text " Hi! How can I help?<end_of_turn>");
            bookings := [] |}.
Proof.
  apply (reply_without_brace_is_the_answer ""
           (fun _ => Returned " Hi! How can I help?<end_of_turn>") (fun _ => None)
           (fun _ => "error") noop_tool_map 0 MAX_SEQUENTIAL_CALLS
           {| llm_messages := [user "hello"]; tool_call_count := 0;
              final_assistant_response := None; bookings := [] |}
           " Hi! How can I help?<end_of_turn>").
  - unfold MAX_SEQUENTIAL_CALLS. simpl. lia.
  - reflexivity.
  - reflexivity.
Defined.

Lemma reply_with_invalid_json_is_the_answer_witness :
  let reply := "{" ++ String quote ("function_call" ++ String quote ": oops }") in
  let s := {| llm_messages := [user "hello"]; tool_call_count := 0;
              final_assistant_response := None; bookings := [] |} in
  sequential_loop "" (fun _ => Returned reply)
    clean_response_text (extract_function_call (fun _ => None)) (fun _ => "error")
    noop_tool_map 1 MAX_SEQUENTIAL_CALLS s
  = Some {| llm_messages := [user "hello"; assistant (clean_response_text reply)];
            tool_call_count := 0;
            final_assistant_response := Some (clean_response_text reply);
            bookings := [] |}.
Proof.
  apply (reply_with_invalid_json_is_the_answer ""
           (fun _ => Returned
                       ("{" ++ String quote ("function_call" ++ String quote ": oops }")))
           (fun _ => None) (fun _ => "error") noop_tool_map 0 MAX_SEQUENTIAL_CALLS
           {| llm_messages := [user "hello"]; tool_call_count := 0;
              final_assistant_response := None; bookings := [] |}
           ("{" ++ String quote ("function_call" ++ String quote ": oops }"))).
  - unfold MAX_SEQUENTIAL_CALLS. simpl. lia.
  - reflexivity.
  - reflexivity.
Defined.

(** ** The fuel of the second and third substitution *)

Lemma length_lstrip s : (String.length (PyStr.lstrip s) <= String.length s)%nat.
Proof.
  induction s as [| a s IH]; simpl; [lia |].
  destruct (PyStr.is_space a); simpl; lia.
Qed.

Lemma length_drop n s : (String.length (drop n s) <= String.length s - n)%nat.
Proof.
  revert s. induction n as [| n IH]; intros s; simpl; [lia |].
  destruct s as [| a s]; simpl; [lia | apply IH].
Qed.

Lemma prefix_length k s : prefix k s = true -> (String.length k <= String.length s)%nat.
Proof.
  revert k. induction s as [| a s IH]; intros k.
  - destruct k as [| c k]; [simpl; lia |].
    intros H. destruct (prefix_head _ _ _ H) as [rest Hrest]. discriminate Hrest.
  - destruct k as [| c k]; [simpl; lia |].
    intros H. simpl in H. destruct (ascii_dec c a); [| discriminate H].
    apply IH in H. simpl. lia.
Qed.

(** Any fuel above the length of the text gives the same result: the scan
    never stops for want of fuel. *)
Lemma sub_mark_fuel_enough c k fuel fuel' text :
  (String.length text < fuel)%nat -> (String.length text < fuel')%nat ->
  sub_mark_from (String c k) fuel text = sub_mark_from (String c k) fuel' text.
Proof.
  revert fuel' text. induction fuel as [| fuel IH]; intros fuel' text Hf Hf'; [lia |].
  destruct fuel' as [| fuel']; [lia |].
  cbn [sub_mark_from].
  destruct (prefix (String c k) text) eqn:Hp.
  - apply prefix_length in Hp.
    pose proof (length_lstrip (drop (String.length (String c k)) text)).
    pose proof (length_drop (String.length (String c k)) text).
    cbn [String.length] in Hp.
    remember (String.length (String c k)) as n eqn:Hn. cbn [String.length] in Hn.
    apply IH; lia.
  - destruct text as [| a text]; [reflexivity |].
    f_equal. simpl in Hf, Hf'. apply IH; lia.
Qed.
